(** * FAA Digital Obstacle File parser: a shallow embedding of
    [object_data_parser.py] and the properties of its record parser,
    line filter and coordinate converter. *)

From Stdlib Require Import ZArith NArith QArith Qabs List String Ascii Lia.
From Stdlib Require Import Floats.
From stdpp Require Import base gmap sets list strings.

(** ** Python values used by the parser *)

(** A Python [str] is a sequence of Unicode code points. *)
Abbreviation char := N (only parsing).
Abbreviation pystr := (list char) (only parsing).

(** A source-level string literal (all of them are ASCII). *)
Definition str (s : string) : pystr :=
  map N_of_ascii (list_ascii_of_string s).

(** The exceptions the modelled code can raise.  [OSError] carries its
    [errno]: [FileNotFoundError] is [OSError] with [ENOENT = 2],
    [PermissionError] with [EACCES = 13], [IsADirectoryError] with
    [EISDIR = 21]. *)
Inductive exn :=
  | IndexError
  | ValueError
  | ZeroDivisionError
  | OSError (errno : Z)
  | UnicodeDecodeError.

Inductive result (A : Type) :=
  | Ok (a : A)
  | Raise (e : exn).
Arguments Ok {A} a.
Arguments Raise {A} e.

#[global] Instance result_ret : MRet result := @Ok.
#[global] Instance result_bind : MBind result := λ A B f m,
  match m with Ok a => f a | Raise e => Raise e end.
#[global] Instance result_fmap : FMap result := λ A B f m,
  match m with Ok a => Ok (f a) | Raise e => Raise e end.

(** [str.isspace] on one code point: the code points CPython's
    [_PyUnicode_IsWhitespace] accepts. *)
Definition isspace (c : char) : bool :=
  ((9 <=? c) && (c <=? 13) || (28 <=? c) && (c <=? 32)
   || (c =? 133) || (c =? 160) || (c =? 5760)
   || (8192 <=? c) && (c <=? 8202)
   || (c =? 8232) || (c =? 8233) || (c =? 8239) || (c =? 8287)
   || (c =? 12288))%N.

(** [s.lstrip(...)] and [s.rstrip(...)], for the characters satisfying [p]. *)
Fixpoint lstrip_with (p : char → bool) (s : pystr) : pystr :=
  match s with
  | [] => []
  | c :: s' => if p c then lstrip_with p s' else s
  end.

Fixpoint rstrip_with (p : char → bool) (s : pystr) : pystr :=
  match s with
  | [] => []
  | c :: s' =>
      match rstrip_with p s' with
      | [] => if p c then [] else [c]
      | r => c :: r
      end
  end.

(** [s.strip()] *)
Definition strip (s : pystr) : pystr :=
  rstrip_with isspace (lstrip_with isspace s).

Arguments strip : simpl never.

(** [s.rstrip(chars)] *)
Definition rstrip_chars (chars : pystr) (s : pystr) : pystr :=
  rstrip_with (λ c, bool_decide (c ∈ chars)) s.

(** [s[a:b]] for constant bounds [0 <= a <= b]: both ends are clamped to
    the length of [s]. *)
Definition slice (s : pystr) (a b : nat) : pystr := drop a (take b s).

Arguments slice : simpl never.

(** [s[i]] for a constant [i >= 0]: a one-character string, or
    [IndexError] when [i] is out of range. *)
Definition item (s : pystr) (i : nat) : result pystr :=
  match s !! i with
  | Some c => Ok [c]
  | None => Raise IndexError
  end.

(** ** The record parser *)

(** One [key: value] pair of a dict display, evaluated after the pairs
    before it. *)
Definition entry (k : string) (v : result pystr)
    (d : gmap string pystr) : result (gmap string pystr) :=
  x ← v; Ok (<[k := x]> d).

Definition parse_dof_line (line : pystr) : result (gmap string pystr) :=
  d ← entry "oas_code" (Ok (strip (slice line 0 2))) ∅;
  d ← entry "obstacle_number" (Ok (strip (slice line 3 9))) d;
  d ← entry "verification_status" (strip <$> item line 10) d;
  d ← entry "country_id" (Ok (strip (slice line 12 14))) d;
  d ← entry "state_id" (Ok (strip (slice line 15 17))) d;
  d ← entry "city_name" (Ok (strip (slice line 18 34))) d;
  d ← entry "lat_deg" (Ok (strip (slice line 35 37))) d;
  d ← entry "lat_min" (Ok (strip (slice line 38 40))) d;
  d ← entry "lat_sec" (Ok (strip (slice line 41 46))) d;
  d ← entry "lat_hem" (strip <$> item line 46) d;
  d ← entry "lon_deg" (Ok (strip (slice line 48 51))) d;
  d ← entry "lon_min" (Ok (strip (slice line 52 54))) d;
  d ← entry "lon_sec" (Ok (strip (slice line 55 60))) d;
  d ← entry "lon_hem" (strip <$> item line 60) d;
  d ← entry "obstacle_type" (Ok (strip (slice line 62 80))) d;
  d ← entry "quantity" (strip <$> item line 81) d;
  d ← entry "agl_height" (Ok (strip (slice line 83 88))) d;
  d ← entry "amsl_height" (Ok (strip (slice line 89 94))) d;
  d ← entry "lighting" (strip <$> item line 95) d;
  d ← entry "horizontal_accuracy" (strip <$> item line 97) d;
  d ← entry "vertical_accuracy" (strip <$> item line 99) d;
  d ← entry "mark_indicator" (strip <$> item line 101) d;
  d ← entry "faa_study_number" (Ok (strip (slice line 103 117))) d;
  d ← entry "action" (strip <$> item line 118) d;
  entry "julian_date" (Ok (strip (slice line 120 127))) d.

(** ** The declared column layout *)

(** Field name, first column, last column: one-indexed and inclusive, as
    in the FAA layout table. *)
Definition ColumnSpec : list (string * nat * nat) :=
  [ ("oas_code", 1, 2); ("obstacle_number", 4, 9);
    ("verification_status", 11, 11); ("country_id", 13, 14);
    ("state_id", 16, 17); ("city_name", 19, 34); ("lat_deg", 36, 37);
    ("lat_min", 39, 40); ("lat_sec", 42, 46); ("lat_hem", 47, 47);
    ("lon_deg", 49, 51); ("lon_min", 53, 54); ("lon_sec", 56, 60);
    ("lon_hem", 61, 61); ("obstacle_type", 63, 80); ("quantity", 82, 82);
    ("agl_height", 84, 88); ("amsl_height", 90, 94); ("lighting", 96, 96);
    ("horizontal_accuracy", 98, 98); ("vertical_accuracy", 100, 100);
    ("mark_indicator", 102, 102); ("faa_study_number", 104, 117);
    ("action", 119, 119); ("julian_date", 121, 127) ].

(** The fixed key set of an obstacle record. *)
Definition field_names : list string :=
  [ "oas_code"; "obstacle_number"; "verification_status"; "country_id";
    "state_id"; "city_name"; "lat_deg"; "lat_min"; "lat_sec"; "lat_hem";
    "lon_deg"; "lon_min"; "lon_sec"; "lon_hem"; "obstacle_type";
    "quantity"; "agl_height"; "amsl_height"; "lighting";
    "horizontal_accuracy"; "vertical_accuracy"; "mark_indicator";
    "faa_study_number"; "action"; "julian_date" ].

(** The characters of [line] in columns [first..last] (one-indexed,
    inclusive), as far as the line reaches. *)
Definition columns (first last : nat) (line : pystr) : pystr :=
  take (last + 1 - first) (drop (first - 1) line).

Arguments columns : simpl never.

(** ** The built-in [float] on strings *)

(** The value [m * 10^e], rounded to the nearest binary64 number (ties to
    even, overflow to an infinity), with the sign [neg]. *)
Definition decimal_to_float (neg : bool) (m : positive) (e : Z) : float :=
  SF2Prim
    (if (0 <=? e)%Z
     then binary_round prec emax neg (m * Z.to_pos (10 ^ e)) 0
     else
       let '(q, e', l) :=
         SFdiv_core_binary prec emax (Zpos m) 0 (10 ^ (- e)) 0 in
       binary_round_aux prec emax neg q e' l).

Definition is_digit (c : char) : bool := ((48 <=? c) && (c <=? 57))%N.

(** [Py_ISSPACE]: the whitespace of the C locale. *)
Definition is_c_space (c : char) : bool :=
  ((9 <=? c) && (c <=? 13) || (c =? 32))%N.

Definition ascii_lower (c : char) : char :=
  if ((65 <=? c) && (c <=? 90))%N then (c + 32)%N else c.

Definition ascii_upper (c : char) : char :=
  if ((97 <=? c) && (c <=? 122))%N then (c - 32)%N else c.

(** The longest prefix of digits, and the rest. *)
Fixpoint span_digits (s : pystr) : pystr * pystr :=
  match s with
  | c :: s' =>
      if is_digit c then let '(ds, r) := span_digits s' in (c :: ds, r)
      else ([], s)
  | [] => ([], [])
  end.

Definition digits_value (ds : pystr) : Z :=
  foldl (λ acc d, 10 * acc + Z.of_N (d - 48))%Z 0%Z ds.

(** An optional sign: whether it is [-], and the rest. *)
Definition split_sign (s : pystr) : bool * pystr :=
  match s with
  | 45%N :: r => (true, r)
  | 43%N :: r => (false, r)
  | _ => (false, s)
  end.

(** Underscores may only stand between two digits; they are removed
    before the number is read. *)
Fixpoint underscores_ok (prev : option char) (s : pystr) : bool :=
  match s with
  | [] => negb (bool_decide (prev = Some 95%N))
  | c :: s' =>
      (if (c =? 95)%N then from_option is_digit false prev
       else negb (bool_decide (prev = Some 95%N)) || is_digit c)
      && underscores_ok (Some c) s'
  end.

Definition strip_underscores (s : pystr) : result pystr :=
  if bool_decide (95%N ∈ s) then
    if underscores_ok None s then Ok (filter (λ c, c ≠ 95%N) s)
    else Raise ValueError
  else Ok s.

(** A decimal literal without sign: digits, an optional fraction and an
    optional exponent, with at least one digit before the exponent. *)
Definition parse_decimal (neg : bool) (s : pystr) : result float :=
  let '(ip, r1) := span_digits s in
  let '(fp, r2) :=
    match r1 with
    | 46%N :: r => span_digits r
    | _ => ([], r1)
    end in
  if bool_decide (ip = [] ∧ fp = []) then Raise ValueError else
  e ← match r2 with
      | [] => Ok 0%Z
      | c :: r3 =>
          if bool_decide (ascii_lower c = 101%N) then
            let '(eneg, r4) := split_sign r3 in
            let '(ed, r5) := span_digits r4 in
            if bool_decide (ed ≠ [] ∧ r5 = []) then
              Ok (if eneg then - digits_value ed else digits_value ed)%Z
            else Raise ValueError
          else Raise ValueError
      end;
  match digits_value (ip ++ fp) with
  | Zpos m => Ok (decimal_to_float neg m (e - Z.of_nat (length fp)))
  | _ => Ok (if neg then neg_zero else zero)
  end.

(** [float(s)] for a string of ASCII characters. *)
Definition float_ascii (s : pystr) : result float :=
  s ← strip_underscores s;
  let s := rstrip_with is_c_space (lstrip_with is_c_space s) in
  let '(neg, r) := split_sign s in
  let word := ascii_lower <$> r in
  if bool_decide (word = str "inf" ∨ word = str "infinity") then
    Ok (if neg then neg_infinity else infinity)
  else if bool_decide (word = str "nan") then Ok nan
  else parse_decimal neg r.

(** ** The coordinate converter *)

(** [try: x = body / except: x = handler] *)
Definition try_except {A : Type} (body : result A) (handler : A) : A :=
  match body with
  | Ok a => a
  | Raise _ => handler
  end.

(** [x / y] on floats *)
Definition truediv (x y : float) : result float :=
  if (y =? 0)%float then Raise ZeroDivisionError else Ok (x / y)%float.

Section converter.
(** What the Unicode database decides is left open: [float] of a string
    that holds a character outside ASCII (CPython first transliterates
    Unicode digits and spaces), and the upper case of such a
    character, which may be several characters long. *)
Variable float_unicode : pystr → result float.
Variable upper_unicode : char → pystr.

(** [float(s)] *)
Definition py_float (s : pystr) : result float :=
  if forallb (λ c, c <? 128)%N s then float_ascii s else float_unicode s.

(** [s.upper()] *)
Definition py_upper (s : pystr) : pystr :=
  mjoin ((λ c, if (c <? 128)%N then [ascii_upper c] else upper_unicode c)
           <$> s).

Definition dms_to_decimal_degrees
    (deg_str min_str sec_str hemisphere : pystr) : result float :=
  let degrees := try_except (py_float deg_str) 0%float in
  let minutes := try_except (py_float min_str) 0%float in
  let seconds := try_except (py_float sec_str) 0%float in
  a ← truediv minutes 60%float;
  b ← truediv seconds 3600%float;
  let decimal := (degrees + a + b)%float in
  let decimal :=
    if bool_decide (py_upper hemisphere ∈ [str "S"; str "W"])
    then (- decimal)%float else decimal in
  Ok decimal.

(** The value of a sub-field: what [float] returns, or [0.0] when it
    raises. *)
Definition sub_field (t : pystr) (v : float) : Prop :=
  py_float t = Ok v ∨ (∃ e, py_float t = Raise e) ∧ v = 0%float.
End converter.

(** The rational number a finite float stands for. *)
Definition float_to_Q (x : float) : option Q :=
  match Prim2SF x with
  | S754_zero _ => Some 0%Q
  | S754_finite s m e =>
      Some ((if s then - (Zpos m # 1) else Zpos m # 1) * 2 ^ e)%Q
  | _ => None
  end.

(** The largest magnitude of a parsed sub-field for which the sum is
    shown to stay finite: [2^1000], about [1.07e301]. *)
Definition magnitude_bound : float := 0x1p+1000%float.

(** A zero, or a finite binary64 number of magnitude below [2^K]: its
    mantissa [m] and exponent [e] satisfy [digits m + e <= K]. *)
Definition SF_below (K : Z) (x : spec_float) : Prop :=
  match x with
  | S754_zero _ => True
  | S754_finite _ m e => (Zpos (digits2_pos m) + e <= K)%Z
  | _ => False
  end.

(** ** File ingestion *)

Definition newline : char := 10%N.
Definition dash : char := 45%N.

(** What one pass of the loop body decides for a raw line of the file,
    before any parsing: [continue], or go on with the trimmed line. *)
Inductive verdict :=
  | Skip
  | Data (line : pystr).

Definition filter_line (raw : pystr) : verdict :=
  let line := rstrip_chars [newline] raw in
  if bool_decide (strip line = []) || (length line <? 80) then Skip
  else if bool_decide (list_to_set (strip line) = ({[dash]} : gset char))
  then Skip
  else Data line.

(** The loop over the lines [f] yields, appending to [records]; an
    exception of the parser leaves the loop and the function. *)
Fixpoint parse_dof_file_from (f : list pystr)
    (records : list (gmap string pystr)) :
    result (list (gmap string pystr)) :=
  match f with
  | [] => Ok records
  | raw :: f' =>
      match filter_line raw with
      | Skip => parse_dof_file_from f' records
      | Data line =>
          record ← parse_dof_line line;
          parse_dof_file_from f' (records ++ [record])
      end
  end.

(** The loop of [parse_dof_file] run to the end of a file that yields the
    lines [f]; opening the file and the exceptions of reading it are in
    [Disk.parse_dof_file]. *)
Definition parse_dof_file (f : list pystr) :
    result (list (gmap string pystr)) :=
  parse_dof_file_from f [].

(** ** Calls and the interpreter state *)

Module Interp.

(** The state a call can read or change besides its arguments: the dict
    objects, by reference (the globals of a module are one of them), and
    the text written to standard output.  A [str] is an immutable value. *)
Record world := World {
  heap : gmap positive (gmap string pystr);
  stdout : list pystr
}.

(** A computation: from the state before to the value returned or the
    exception raised, and the state after. *)
Definition py (A : Type) : Type := world → result A * world.

#[global] Instance py_ret : MRet py := λ A a w, (Ok a, w).
#[global] Instance py_bind : MBind py := λ A B f m w,
  match m w with
  | (Ok a, w') => f a w'
  | (Raise e, w') => (Raise e, w')
  end.

(** A method of an immutable value. *)
Definition value_op {A : Type} (r : result A) : py A := λ w, (r, w).

(** [s[a:b]], [s[i]] and [s.strip()] *)
Definition getslice (s : pystr) (a b : nat) : py pystr :=
  value_op (Ok (slice s a b)).
Definition getitem (s : pystr) (i : nat) : py pystr := value_op (item s i).
Definition str_strip (s : pystr) : py pystr := value_op (Ok (strip s)).

(** A dict display whose values have been evaluated: a new dict object
    that holds the pairs, a later pair replacing an earlier one of the
    same key. *)
Definition build_map (pairs : list (string * pystr)) : py positive := λ w,
  let d := foldl (λ d kv, <[kv.1 := kv.2]> d) ∅ pairs in
  let l := fresh (dom (heap w)) in
  (Ok l, {| heap := <[l := d]> (heap w); stdout := stdout w |}).

(** [parse_dof_line] as a call: the values of the dict display are
    evaluated from first to last, then the dict is built. *)
Definition parse_dof_line (line : pystr) : py positive :=
  oas_code ← (s ← getslice line 0 2; str_strip s);
  obstacle_number ← (s ← getslice line 3 9; str_strip s);
  verification_status ← (s ← getitem line 10; str_strip s);
  country_id ← (s ← getslice line 12 14; str_strip s);
  state_id ← (s ← getslice line 15 17; str_strip s);
  city_name ← (s ← getslice line 18 34; str_strip s);
  lat_deg ← (s ← getslice line 35 37; str_strip s);
  lat_min ← (s ← getslice line 38 40; str_strip s);
  lat_sec ← (s ← getslice line 41 46; str_strip s);
  lat_hem ← (s ← getitem line 46; str_strip s);
  lon_deg ← (s ← getslice line 48 51; str_strip s);
  lon_min ← (s ← getslice line 52 54; str_strip s);
  lon_sec ← (s ← getslice line 55 60; str_strip s);
  lon_hem ← (s ← getitem line 60; str_strip s);
  obstacle_type ← (s ← getslice line 62 80; str_strip s);
  quantity ← (s ← getitem line 81; str_strip s);
  agl_height ← (s ← getslice line 83 88; str_strip s);
  amsl_height ← (s ← getslice line 89 94; str_strip s);
  lighting ← (s ← getitem line 95; str_strip s);
  horizontal_accuracy ← (s ← getitem line 97; str_strip s);
  vertical_accuracy ← (s ← getitem line 99; str_strip s);
  mark_indicator ← (s ← getitem line 101; str_strip s);
  faa_study_number ← (s ← getslice line 103 117; str_strip s);
  action ← (s ← getitem line 118; str_strip s);
  julian_date ← (s ← getslice line 120 127; str_strip s);
  build_map
    [ ("oas_code", oas_code); ("obstacle_number", obstacle_number);
      ("verification_status", verification_status);
      ("country_id", country_id); ("state_id", state_id);
      ("city_name", city_name); ("lat_deg", lat_deg); ("lat_min", lat_min);
      ("lat_sec", lat_sec); ("lat_hem", lat_hem); ("lon_deg", lon_deg);
      ("lon_min", lon_min); ("lon_sec", lon_sec); ("lon_hem", lon_hem);
      ("obstacle_type", obstacle_type); ("quantity", quantity);
      ("agl_height", agl_height); ("amsl_height", amsl_height);
      ("lighting", lighting); ("horizontal_accuracy", horizontal_accuracy);
      ("vertical_accuracy", vertical_accuracy);
      ("mark_indicator", mark_indicator);
      ("faa_study_number", faa_study_number); ("action", action);
      ("julian_date", julian_date) ].

End Interp.

(** ** The map plotter *)

(** The arguments of one [folium.Marker]: [location], [tooltip] and
    [popup]. *)
Record marker := Marker {
  marker_location : float * float;
  tooltip : pystr;
  popup : pystr }.

(** What [create_obstacle_map] needs of folium, which is not part of
    this code: a map object, created around a centre with a zoom level;
    [Marker(...).add_to(map)], which gives the map with the marker or
    raises; and [map.save(filename)], which succeeds or raises. *)
Class Folium := {
  folium_map : Type;
  new_map : float * float → Z → folium_map;
  add_marker : marker → folium_map → option folium_map;
  save : folium_map → pystr → bool }.

(** A folium that records the markers it is given, in order. *)
Definition recording_folium : Folium := {|
  folium_map := list marker;
  new_map _ _ := [];
  add_marker mk m := Some (m ++ [mk]);
  save _ _ := true |}.

(** What [print] wrote: a record, or a text. *)
Inductive printed :=
  | PrintObs (obs : gmap string pystr)
  | PrintText (text : pystr).

(** How the plotter can fail: a key missing from a record, an exception
    of the converter, or an exception of folium. *)
Inductive plot_error :=
  | KeyError (key : string)
  | Uncaught (e : exn)
  | FoliumError.

Inductive outcome (A : Type) :=
  | Done (a : A)
  | Fail (e : plot_error).
Arguments Done {A} a.
Arguments Fail {A} e.

#[global] Instance outcome_ret : MRet outcome := @Done.
#[global] Instance outcome_bind : MBind outcome := λ A B f m,
  match m with Done a => f a | Fail e => Fail e end.

(** [obs[k]] *)
Definition getitem (obs : gmap string pystr) (k : string) : outcome pystr :=
  match obs !! k with
  | Some v => Done v
  | None => Fail (KeyError k)
  end.

Definition propagate {A : Type} (r : result A) : outcome A :=
  match r with
  | Ok a => Done a
  | Raise e => Fail (Uncaught e)
  end.

(** [[37.8283, -121.5795]] *)
Definition map_center : float * float :=
  Eval vm_compute in
    (decimal_to_float false 378283 (-4), decimal_to_float true 1215795 (-4)).

Section plotter.
Variable float_unicode : pystr → result float.
Variable upper_unicode : char → pystr.
Context `{Folium}.

(** The body of the loop after [print(obs)], on the map built so far. *)
Definition plot_obstacle (obs : gmap string pystr) (obstacle_map : folium_map) :
    outcome folium_map :=
  lat_deg ← getitem obs "lat_deg";
  lat_min ← getitem obs "lat_min";
  lat_sec ← getitem obs "lat_sec";
  lat_hem ← getitem obs "lat_hem";
  lat ← propagate (dms_to_decimal_degrees float_unicode upper_unicode
                     lat_deg lat_min lat_sec lat_hem);
  lon_deg ← getitem obs "lon_deg";
  lon_min ← getitem obs "lon_min";
  lon_sec ← getitem obs "lon_sec";
  lon_hem ← getitem obs "lon_hem";
  lon ← propagate (dms_to_decimal_degrees float_unicode upper_unicode
                     lon_deg lon_min lon_sec lon_hem);
  if (lat =? 0)%float && (lon =? 0)%float then Done obstacle_map else
  oas_code ← getitem obs "oas_code";
  obstacle_number ← getitem obs "obstacle_number";
  obstacle_type ← getitem obs "obstacle_type";
  city_name ← getitem obs "city_name";
  agl_height ← getitem obs "agl_height";
  amsl_height ← getitem obs "amsl_height";
  lighting ← getitem obs "lighting";
  action ← getitem obs "action";
  julian_date ← getitem obs "julian_date";
  let popup_text :=
    str "OAS#" ++ oas_code ++ str "-" ++ obstacle_number ++ str "<br>"
    ++ str "Type: " ++ obstacle_type ++ str "<br>"
    ++ str "City: " ++ city_name ++ str "<br>"
    ++ str "AGL Height: " ++ agl_height ++ str " ft<br>"
    ++ str "AMSL Height: " ++ amsl_height ++ str " ft<br>"
    ++ str "Lighting: " ++ lighting ++ str "<br>"
    ++ str "Action: " ++ action ++ str "<br>"
    ++ str "Julian Date: " ++ julian_date in
  tooltip ← getitem obs "obstacle_type";
  match add_marker {| marker_location := (lat, lon); tooltip := tooltip;
                      popup := popup_text |} obstacle_map with
  | Some obstacle_map => Done obstacle_map
  | None => Fail FoliumError
  end.

(** The loop over [obstacle_data]: what has been printed, and the map or
    the exception that left the loop. *)
Fixpoint plot_from (obstacle_data : list (gmap string pystr))
    (stdout : list printed) (obstacle_map : folium_map) :
    list printed * outcome folium_map :=
  match obstacle_data with
  | [] => (stdout, Done obstacle_map)
  | obs :: obstacle_data' =>
      let stdout := stdout ++ [PrintObs obs] in
      match plot_obstacle obs obstacle_map with
      | Done obstacle_map => plot_from obstacle_data' stdout obstacle_map
      | Fail e => (stdout, Fail e)
      end
  end.

(** [create_obstacle_map]: what it printed, and the map it saved or the
    exception it raised. *)
Definition create_obstacle_map (obstacle_data : list (gmap string pystr))
    (map_filename : pystr) : list printed * outcome folium_map :=
  let obstacle_map := new_map map_center 5 in
  match plot_from obstacle_data [] obstacle_map with
  | (stdout, Done obstacle_map) =>
      if save obstacle_map map_filename
      then (stdout ++ [PrintText (str "Map saved to " ++ map_filename)],
            Done obstacle_map)
      else (stdout, Fail FoliumError)
  | (stdout, Fail e) => (stdout, Fail e)
  end.

(** The script on a DOF file that yields the lines [f]: parse them, then
    plot; [Disk.main] is the script from the path of the file. *)
Definition main (f : list pystr) : list printed * outcome folium_map :=
  match parse_dof_file f with
  | Ok obstacles => create_obstacle_map obstacles (str "obstacles_map.html")
  | Raise e => ([], Fail (Uncaught e))
  end.
End plotter.

(** ** The file on disk *)

(** What iterating over an opened text file gives: the lines read before
    the end of the file, or before the exception that ends the iteration
    ([UnicodeDecodeError] at bytes that are not UTF-8, [OSError] when
    reading fails). *)
Record text_file := TextFile {
  file_lines : list pystr;
  file_error : option exn
}.

Module Disk.
Section disk.
(** [open(filename, "r", encoding="utf-8")]: the file, or the exception
    (a missing file, a directory, no permission, ...). *)
Variable open : pystr → result text_file.

Definition parse_dof_file (filename : pystr) :
    result (list (gmap string pystr)) :=
  f ← open filename;
  records ← parse_dof_file_from (file_lines f) [];
  match file_error f with
  | Some e => Raise e
  | None => Ok records
  end.

Variable float_unicode : pystr → result float.
Variable upper_unicode : char → pystr.
Context `{Folium}.

Definition dof_filename : pystr := str "DOF_250119/06-CA.Dat".

(** The script. *)
Definition main : list printed * outcome folium_map :=
  match parse_dof_file dof_filename with
  | Ok obstacles =>
      create_obstacle_map float_unicode upper_unicode obstacles
        (str "obstacles_map.html")
  | Raise e => ([], Fail (Uncaught e))
  end.
End disk.
End Disk.

(** The lines of a file that reach the record parser, in order. *)
Definition data_lines (f : list pystr) : list pystr :=
  omap (λ raw, match filter_line raw with Data line => Some line | Skip => None end) f.

(** The keys of a record the converter is given, in the order they are
    looked up. *)
Definition coordinate_keys : list string :=
  [ "lat_deg"; "lat_min"; "lat_sec"; "lat_hem";
    "lon_deg"; "lon_min"; "lon_sec"; "lon_hem" ].

(** What a record must hold for a marker to stand for it: the marker
    lies at the converted coordinates, which are not both zero, and its
    tooltip is the obstacle type. *)
Definition plotted_as (float_unicode : pystr → result float)
    (upper_unicode : char → pystr) (obs : gmap string pystr) (mk : marker) :
    Prop :=
  ∃ lat_deg lat_min lat_sec lat_hem lon_deg lon_min lon_sec lon_hem lat lon,
    obs !! "lat_deg" = Some lat_deg ∧ obs !! "lat_min" = Some lat_min ∧
    obs !! "lat_sec" = Some lat_sec ∧ obs !! "lat_hem" = Some lat_hem ∧
    obs !! "lon_deg" = Some lon_deg ∧ obs !! "lon_min" = Some lon_min ∧
    obs !! "lon_sec" = Some lon_sec ∧ obs !! "lon_hem" = Some lon_hem ∧
    dms_to_decimal_degrees float_unicode upper_unicode
      lat_deg lat_min lat_sec lat_hem = Ok lat ∧
    dms_to_decimal_degrees float_unicode upper_unicode
      lon_deg lon_min lon_sec lon_hem = Ok lon ∧
    ((lat =? 0) && (lon =? 0))%float = false ∧
    marker_location mk = (lat, lon) ∧
    obs !! "obstacle_type" = Some (tooltip mk).

(** ** Sample data *)

(** A data line of a DOF file, and its first 80 characters. *)
Definition sample_line : pystr :=
  str "06-000001 O US CA SAN DIEGO        32 42 10.00N 117 05 49.19W TOWER              1 00100 00200 R 1 A M 2011AWP01234OE A 2011123".

Definition short_line : pystr := take 80 sample_line.

(** A file with a short header line, a line of dashes, a blank line and
    the sample line twice, once as a last line without newline. *)
Definition sample_file : list pystr :=
  [ str "CURRENCY DATE = 01/19/25" ++ [newline];
    replicate 127 dash ++ [newline];
    sample_line ++ [newline];
    [newline];
    sample_line ].


(** A record with the coordinate keys only, whose numeric sub-fields are
    empty, zero or not numbers. *)
Definition blank_coordinates : gmap string pystr :=
  list_to_map
    [ ("lat_deg", str ""); ("lat_min", str "0"); ("lat_sec", str "0.00");
      ("lat_hem", str "N"); ("lon_deg", str "-0"); ("lon_min", str "");
      ("lon_sec", str "no"); ("lon_hem", str "W") ].

(** * Proofs *)

(** ** Slices and columns *)

Lemma item_slice (s : pystr) (i : nat) :
  i < length s → item s i = Ok (slice s i (S i)).
Proof.
  intros Hi. unfold item, slice.
  destruct (s !! i) as [c|] eqn:Hc.
  - rewrite (take_S_r _ _ _ Hc), drop_app_length'; [done|].
    rewrite length_take. lia.
  - apply lookup_ge_None in Hc. lia.
Qed.

Lemma slice_columns (line : pystr) (a b : nat) :
  1 ≤ a → a ≤ b → slice line (a - 1) b = columns a b line.
Proof.
  intros Ha Hab. unfold slice, columns.
  rewrite take_drop_commute. do 2 f_equal. lia.
Qed.

Lemma columns_lookup (line : pystr) (a b i : nat) :
  1 ≤ a → i < b + 1 - a → columns a b line !! i = line !! (a - 1 + i).
Proof.
  intros Ha Hi. unfold columns.
  rewrite lookup_take_lt by done. apply lookup_drop.
Qed.

Lemma columns_length (line : pystr) (a b : nat) :
  length (columns a b line) ≤ b + 1 - a.
Proof. unfold columns. rewrite length_take. lia. Qed.

Lemma columns_length_full (line : pystr) (a b : nat) :
  1 ≤ a → b ≤ length line → length (columns a b line) = b + 1 - a.
Proof. intros. unfold columns. rewrite length_take, length_drop. lia. Qed.

(** *** When the parser returns *)

Lemma item_short (s : pystr) (i : nat) :
  length s ≤ i → item s i = Raise IndexError.
Proof.
  intros Hi. unfold item. by rewrite (lookup_ge_None_2 s i Hi).
Qed.

Ltac item_step line i :=
  destruct (decide (i < length line));
  [ rewrite (item_slice line i) by done
  | rewrite (item_short line i) by lia; reflexivity ].

Lemma parse_dof_line_short (line : pystr) :
  length line ≤ 118 → parse_dof_line line = Raise IndexError.
Proof.
  intros Hlen. unfold parse_dof_line, entry.
  item_step line 10. item_step line 46. item_step line 60.
  item_step line 81. item_step line 95. item_step line 97.
  item_step line 99. item_step line 101. item_step line 118.
  lia.
Qed.

Ltac abstract_values :=
  repeat match goal with
    | |- context [strip ?x] => generalize (strip x); intro
    end.

Lemma parse_dof_line_long (line : pystr) :
  118 < length line →
  ∃ rec, parse_dof_line line = Ok rec ∧
    dom rec = list_to_set field_names ∧
    ∀ f a b, (f, a, b) ∈ ColumnSpec →
      rec !! f = Some (strip (columns a b line)).
Proof.
  intros H. unfold parse_dof_line. rewrite !item_slice by lia.
  unfold entry. cbn [mbind result_bind fmap result_fmap].
  eexists; split; [reflexivity|]. split.
  - rewrite !dom_insert_L, dom_empty_L.
    apply (bool_decide_unpack _). vm_compute. exact I.
  - intros f a b Hin.
    repeat (apply elem_of_cons in Hin as [[= -> -> ->]|Hin];
       [ rewrite <- slice_columns by lia; simpl Nat.sub;
         abstract_values; vm_compute; reflexivity | ]).
    by apply elem_of_nil in Hin.
Qed.

Lemma parse_dof_line_Ok_length (line : pystr) (rec : gmap string pystr) :
  parse_dof_line line = Ok rec → 118 < length line.
Proof.
  intros Hrec. destruct (decide (118 < length line)) as [|Hshort]; [done|].
  rewrite parse_dof_line_short in Hrec by lia. done.
Qed.

(** *** Stripping *)

Section stripping.
Context (p : char → bool).

Lemma lstrip_with_split (s : pystr) :
  ∃ pre, s = pre ++ lstrip_with p s ∧ Forall (λ c, p c = true) pre.
Proof.
  induction s as [|c s [pre [Hs Hpre]]]; simpl.
  - by exists [].
  - destruct (p c) eqn:Hc.
    + exists (c :: pre). split; [by rewrite Hs at 1|by constructor].
    + by exists [].
Qed.

Lemma lstrip_with_head (s : pystr) (c : char) :
  head (lstrip_with p s) = Some c → p c = false.
Proof.
  induction s as [|x s IH]; simpl; [done|].
  destruct (p x) eqn:Hx; [done|]. by intros [= <-].
Qed.

Lemma lstrip_with_length (s : pystr) :
  length (lstrip_with p s) ≤ length s.
Proof.
  induction s as [|x s IH]; simpl; [done|]. destruct (p x); simpl; lia.
Qed.

Lemma lstrip_with_id (s : pystr) :
  Forall (λ c, p c = false) s → lstrip_with p s = s.
Proof. destruct 1 as [|c s Hc _]; simpl; [done|]. by rewrite Hc. Qed.

Lemma rstrip_with_split (s : pystr) :
  ∃ post, s = rstrip_with p s ++ post ∧ Forall (λ c, p c = true) post.
Proof.
  induction s as [|c s [post [Hs Hpost]]]; simpl.
  - by exists [].
  - destruct (rstrip_with p s) as [|y r] eqn:Hr.
    + destruct (p c) eqn:Hc.
      * exists (c :: post). simpl in Hs. split; [by rewrite Hs at 1|].
        by constructor.
      * exists post. simpl in *. by rewrite Hs at 1.
    + exists post. split; [|done]. simpl. by rewrite Hs at 1.
Qed.

Lemma rstrip_with_last (s : pystr) (c : char) :
  last (rstrip_with p s) = Some c → p c = false.
Proof.
  induction s as [|x s IH]; simpl; [done|].
  destruct (rstrip_with p s) as [|y r] eqn:Hr.
  - destruct (p x) eqn:Hx; [done|]. by intros [= <-].
  - by rewrite last_cons_cons.
Qed.

Lemma rstrip_with_head (s : pystr) (c : char) :
  head (rstrip_with p s) = Some c → head s = Some c.
Proof.
  destruct s as [|x s]; simpl; [done|].
  destruct (rstrip_with p s); [destruct (p x)|]; done.
Qed.

Lemma rstrip_with_length (s : pystr) :
  length (rstrip_with p s) ≤ length s.
Proof.
  induction s as [|x s IH]; simpl; [done|].
  destruct (rstrip_with p s); [destruct (p x)|]; simpl in *; lia.
Qed.

Lemma rstrip_with_id (s : pystr) :
  Forall (λ c, p c = false) s → rstrip_with p s = s.
Proof.
  induction 1 as [|c s Hc _ IH]; simpl; [done|].
  rewrite IH. destruct s; [by rewrite Hc|done].
Qed.
End stripping.

Lemma strip_head (s : pystr) (c : char) :
  head (strip s) = Some c → isspace c = false.
Proof.
  intros Hc. apply rstrip_with_head in Hc. by eapply lstrip_with_head.
Qed.

Lemma strip_last (s : pystr) (c : char) :
  last (strip s) = Some c → isspace c = false.
Proof. apply rstrip_with_last. Qed.

Lemma strip_length (s : pystr) : length (strip s) ≤ length s.
Proof.
  unfold strip. etrans; [apply rstrip_with_length|apply lstrip_with_length].
Qed.

(** [strip s] is [s] without a run of whitespace at each end. *)
Lemma strip_split (s : pystr) :
  ∃ pre post, s = pre ++ strip s ++ post ∧
    Forall (λ c, isspace c = true) pre ∧ Forall (λ c, isspace c = true) post.
Proof.
  destruct (lstrip_with_split isspace s) as [pre [Hs Hpre]].
  destruct (rstrip_with_split isspace (lstrip_with isspace s))
    as [post [Ht Hpost]].
  exists pre, post. split; [|done]. unfold strip. by rewrite <- Ht.
Qed.

Lemma strip_id (s : pystr) :
  Forall (λ c, isspace c = false) s → strip s = s.
Proof.
  intros Hs. unfold strip. by rewrite lstrip_with_id, rstrip_with_id.
Qed.

(** *** Column 3 is outside every extracted range *)

Lemma slice_insert_out (s : pystr) (i a b : nat) (c : char) :
  i < a ∨ b ≤ i → slice (<[i := c]> s) a b = slice s a b.
Proof.
  intros Hi. unfold slice. destruct (decide (b ≤ i)).
  - by rewrite take_insert_ge.
  - rewrite take_insert_lt by lia. apply drop_insert_lt. lia.
Qed.

Lemma item_insert_ne (s : pystr) (i j : nat) (c : char) :
  i ≠ j → item (<[i := c]> s) j = item s j.
Proof. intros Hij. unfold item. by rewrite list_lookup_insert_ne. Qed.

Lemma parse_dof_line_column_3 (line : pystr) (c : char) :
  parse_dof_line (<[2 := c]> line) = parse_dof_line line.
Proof.
  unfold parse_dof_line.
  rewrite !slice_insert_out by lia. rewrite !item_insert_ne by lia. done.
Qed.

Lemma ColumnSpec_names : ColumnSpec.*1.*1 = field_names.
Proof. reflexivity. Qed.

Lemma field_names_NoDup : NoDup field_names.
Proof. apply (bool_decide_unpack _). vm_compute. exact I. Qed.

Lemma ColumnSpec_bounds (f : string) (a b : nat) :
  (f, a, b) ∈ ColumnSpec → 1 ≤ a ∧ a ≤ b ∧ b ≤ 127 ∧ ¬ (a ≤ 3 ≤ b).
Proof.
  intros Hin.
  repeat (apply elem_of_cons in Hin as [[= -> -> ->]|Hin]; [lia|]).
  by apply elem_of_nil in Hin.
Qed.

(** ** Properties of the record parser *)

(** The parser on the sample line, field by field in the order of
    [field_names]. *)
Example parse_dof_line_sample :
  match parse_dof_line sample_line with
  | Ok rec => (λ k, rec !! k) <$> field_names
  | Raise _ => []
  end
  = Some <$>
      (str <$>
         [ "06"; "000001"; "O"; "US"; "CA"; "SAN DIEGO"; "32"; "42";
           "10.00"; "N"; "117"; "05"; "49.19"; "W"; "TOWER"; "1"; "00100";
           "00200"; "R"; "1"; "A"; "M"; "2011AWP01234OE"; "A"; "2011123" ]).
Proof. vm_compute. reflexivity. Qed.

(** C1: on a line of at least 127 characters the parser returns, and every
    declared field holds the stripped characters of its declared columns
    (columns are one-indexed and inclusive: character [i] of the range
    [a..b] is character [a - 1 + i] of the line).  No declared range
    contains column 3, and the character in column 3 does not influence
    the result. *)
Theorem parse_dof_line_column_exact (line : pystr) :
  127 ≤ length line →
  ∃ rec, parse_dof_line line = Ok rec ∧
    (∀ f a b, (f, a, b) ∈ ColumnSpec →
       rec !! f = Some (strip (columns a b line)) ∧
       length (columns a b line) = b + 1 - a ∧
       (∀ i, i < b + 1 - a → columns a b line !! i = line !! (a - 1 + i)) ∧
       ¬ (a ≤ 3 ≤ b)) ∧
    (∀ c, parse_dof_line (<[2 := c]> line) = Ok rec).
Proof.
  intros Hlen.
  destruct (parse_dof_line_long line) as (rec & Hrec & _ & Hfields); [lia|].
  exists rec. split; [done|]. split.
  - intros f a b Hin.
    destruct (ColumnSpec_bounds f a b Hin) as (Ha & Hab & Hb & H3).
    split; [by apply Hfields|]. split; [apply columns_length_full; lia|].
    split; [|done]. intros i Hi. by apply columns_lookup.
  - intros c. by rewrite parse_dof_line_column_3.
Qed.

Lemma parse_dof_line_column_exact_witness :
  ∃ rec, parse_dof_line sample_line = Ok rec ∧
    rec !! "lon_sec" = Some (str "49.19") ∧
    rec !! "obstacle_type" = Some (str "TOWER").
Proof.
  destruct (parse_dof_line_column_exact sample_line)
    as (rec & Hrec & Hfields & _).
  - vm_compute. lia.
  - exists rec. split; [done|].
    destruct (Hfields "lon_sec" 56 60) as [-> _];
      [apply (bool_decide_unpack _); vm_compute; exact I|].
    destruct (Hfields "obstacle_type" 63 80) as [-> _];
      [apply (bool_decide_unpack _); vm_compute; exact I|].
    split; vm_compute; reflexivity.
Defined.

(** C2: on a line of at least 127 characters the parser returns a mapping
    whose keys are exactly the 25 field names, each bound to a string. *)
Theorem parse_dof_line_keys (line : pystr) :
  127 ≤ length line →
  ∃ rec, parse_dof_line line = Ok rec ∧
    dom rec = list_to_set field_names ∧
    size rec = 25 ∧
    (∀ k, k ∈ field_names → ∃ v : pystr, rec !! k = Some v) ∧
    (∀ k, k ∉ field_names → rec !! k = None).
Proof.
  intros Hlen.
  destruct (parse_dof_line_long line) as (rec & Hrec & Hdom & _); [lia|].
  exists rec. split; [done|]. split; [done|]. split; [|split].
  - rewrite <- size_dom, Hdom, size_list_to_set by apply field_names_NoDup.
    reflexivity.
  - intros k Hk. apply (elem_of_list_to_set (C := gset string)) in Hk.
    rewrite <- Hdom in Hk. by apply elem_of_dom in Hk.
  - intros k Hk. apply not_elem_of_dom. rewrite Hdom.
    by rewrite elem_of_list_to_set.
Qed.

Lemma parse_dof_line_keys_witness :
  ∃ rec, parse_dof_line sample_line = Ok rec ∧ size rec = 25 ∧
    rec !! "folium" = None.
Proof.
  destruct (parse_dof_line_keys sample_line)
    as (rec & Hrec & _ & Hsize & _ & Hout).
  - vm_compute. lia.
  - exists rec. split; [done|]. split; [done|]. apply Hout.
    apply (bool_decide_unpack _). vm_compute. exact I.
Defined.

(** C10: whenever the parser returns, every value of the mapping belongs
    to a declared field, begins and ends with a character that is not
    whitespace (or is empty), and is no longer than the field's declared
    column range is wide. *)
Theorem parse_dof_line_values_trimmed (line : pystr)
    (rec : gmap string pystr) :
  parse_dof_line line = Ok rec →
  (∀ f v, rec !! f = Some v →
     ∃ a b, (f, a, b) ∈ ColumnSpec ∧
       (∀ c, head v = Some c → isspace c = false) ∧
       (∀ c, last v = Some c → isspace c = false) ∧
       length v ≤ b + 1 - a) ∧
  Forall (λ '(f, w), ∃ v : pystr, rec !! f = Some v ∧ length v ≤ w)
    [ ("oas_code", 2); ("lat_hem", 1); ("lon_hem", 1); ("city_name", 16);
      ("obstacle_type", 18); ("faa_study_number", 14); ("julian_date", 7) ].
Proof.
  intros Hrec. pose proof (parse_dof_line_Ok_length _ _ Hrec) as Hlen.
  destruct (parse_dof_line_long line Hlen) as (rec' & Hrec' & Hdom & Hfields).
  rewrite Hrec in Hrec'. injection Hrec' as <-.
  assert (∀ f a b, (f, a, b) ∈ ColumnSpec →
    ∃ v : pystr, rec !! f = Some v ∧
      (∀ c, head v = Some c → isspace c = false) ∧
      (∀ c, last v = Some c → isspace c = false) ∧
      length v ≤ b + 1 - a) as Hall.
  { intros f a b Hin. exists (strip (columns a b line)).
    split; [by apply Hfields|].
    split; [apply strip_head|]. split; [apply strip_last|].
    etrans; [apply strip_length|apply columns_length]. }
  split.
  - intros f v Hv.
    assert (f ∈ field_names) as Hf.
    { apply (elem_of_list_to_set (C := gset string)). rewrite <- Hdom.
      by apply elem_of_dom. }
    rewrite <- ColumnSpec_names in Hf.
    apply list_elem_of_fmap in Hf as (y & Hy & Hf).
    apply list_elem_of_fmap in Hf as ([[f0 a] b] & Hz & Hf).
    simpl in *. subst. exists a, b.
    destruct (Hall _ _ _ Hf) as (v' & Hv' & ?).
    simpl in Hv. rewrite Hv in Hv'. injection Hv' as <-. done.
  - assert (∀ f a b w, bool_decide ((f, a, b) ∈ ColumnSpec) = true →
      b + 1 - a = w → ∃ v : pystr, rec !! f = Some v ∧ length v ≤ w) as Hw.
    { intros f a b w Hin%bool_decide_eq_true_1 <-.
      destruct (Hall _ _ _ Hin) as (v & ? & _ & _ & ?). by exists v. }
    repeat apply Forall_cons_2; [..|apply Forall_nil_2].
    + by apply (Hw _ 1 2).
    + by apply (Hw _ 47 47).
    + by apply (Hw _ 61 61).
    + by apply (Hw _ 19 34).
    + by apply (Hw _ 63 80).
    + by apply (Hw _ 104 117).
    + by apply (Hw _ 121 127).
Qed.

Lemma parse_dof_line_values_trimmed_witness :
  ∃ rec, parse_dof_line sample_line = Ok rec ∧
    ∃ v : pystr, rec !! "city_name" = Some v ∧ length v ≤ 16.
Proof.
  destruct (parse_dof_line_long sample_line) as (rec & Hrec & _);
    [vm_compute; lia|].
  exists rec. split; [done|].
  destruct (parse_dof_line_values_trimmed sample_line rec Hrec) as [_ Hw].
  apply Forall_cons_1 in Hw as [_ Hw]. apply Forall_cons_1 in Hw as [_ Hw].
  apply Forall_cons_1 in Hw as [_ Hw]. by apply Forall_cons_1 in Hw as [Hw _].
Defined.

(** ** Properties of file ingestion *)

Lemma list_to_set_all_eq (x : char) (s : pystr) :
  s ≠ [] → Forall (λ c, c = x) s → list_to_set s = ({[x]} : gset char).
Proof.
  intros Hne Hall. apply set_eq. intros y.
  rewrite elem_of_list_to_set, elem_of_singleton. split.
  - intros Hy. by eapply Forall_forall in Hall.
  - intros ->. destruct Hall as [|c s -> _]; [done|]. apply list_elem_of_here.
Qed.

Lemma filter_line_Data (raw line : pystr) :
  filter_line raw = Data line →
  line = rstrip_chars [newline] raw ∧ strip line ≠ [] ∧ 80 ≤ length line ∧
  list_to_set (strip line) ≠ ({[dash]} : gset char).
Proof.
  unfold filter_line.
  destruct (bool_decide _ || _) eqn:Hblank; [done|].
  apply orb_false_elim in Hblank as [Hblank%bool_decide_eq_false_1 Hlen].
  apply Nat.ltb_ge in Hlen.
  destruct (bool_decide (list_to_set _ = _)) eqn:Hdash; [done|].
  apply bool_decide_eq_false_1 in Hdash. by intros [= <-].
Qed.

Lemma dashes_only_stripped (line : pystr) :
  line ≠ [] → Forall (λ c, c = dash) line →
  list_to_set (strip line) = ({[dash]} : gset char).
Proof.
  intros Hne Hall. rewrite strip_id.
  - by apply list_to_set_all_eq.
  - eapply Forall_impl; [exact Hall|]. by intros c ->.
Qed.

Lemma parse_dof_file_from_cons (raw : pystr) (f : list pystr)
    (records : list (gmap string pystr)) :
  parse_dof_file_from (raw :: f) records =
    match filter_line raw with
    | Skip => parse_dof_file_from f records
    | Data line =>
        record ← parse_dof_line line;
        parse_dof_file_from f (records ++ [record])
    end.
Proof. reflexivity. Qed.

(** C9: a line handed to the record parser is the raw line without its
    trailing newlines, is not blank, has at least 80 characters and does
    not consist of dashes only; a raw line that (once its trailing
    newlines are removed) is blank, shorter than 80 characters or made of
    dashes only is skipped, and the loop goes on with the lines after it
    and the records collected so far.  A line that is not skipped is
    parsed and its record appended. *)
Theorem parse_dof_file_filtering :
  (∀ raw line, filter_line raw = Data line →
     line = rstrip_chars [newline] raw ∧
     strip line ≠ [] ∧ 80 ≤ length line ∧ ¬ Forall (λ c, c = dash) line) ∧
  (∀ raw,
     strip (rstrip_chars [newline] raw) = [] ∨
     length (rstrip_chars [newline] raw) < 80 ∨
     Forall (λ c, c = dash) (rstrip_chars [newline] raw) →
     filter_line raw = Skip ∧
     ∀ f records,
       parse_dof_file_from (raw :: f) records = parse_dof_file_from f records) ∧
  (∀ raw line f records, filter_line raw = Data line →
     parse_dof_file_from (raw :: f) records =
       (record ← parse_dof_line line;
        parse_dof_file_from f (records ++ [record]))).
Proof.
  split; [|split].
  - intros raw line Hdata.
    destruct (filter_line_Data _ _ Hdata) as (Hline & Hblank & Hlen & Hdash).
    repeat split; try done. intros Hall. apply Hdash.
    apply dashes_only_stripped; [|done]. intros ->. simpl in Hlen. lia.
  - intros raw Hfail.
    assert (filter_line raw = Skip) as Hskip.
    { destruct (filter_line raw) as [|line] eqn:Hdata; [done|].
      destruct (filter_line_Data _ _ Hdata) as (-> & Hblank & Hlen & Hdash).
      destruct Hfail as [?|[?|Hall]]; [done|lia|].
      destruct Hdash. apply dashes_only_stripped; [|done].
      intros Hnil. rewrite Hnil in Hlen. simpl in Hlen. lia. }
    split; [done|]. intros f records.
    by rewrite parse_dof_file_from_cons, Hskip.
  - intros raw line f records Hdata.
    by rewrite parse_dof_file_from_cons, Hdata.
Qed.

Lemma parse_dof_file_filtering_witness :
  (strip sample_line ≠ [] ∧ 80 ≤ length sample_line ∧
   ¬ Forall (λ c, c = dash) sample_line) ∧
  filter_line (replicate 127 dash ++ [newline]) = Skip.
Proof.
  destruct parse_dof_file_filtering as (Hdata & Hskip & _). split.
  - destruct (Hdata (sample_line ++ [newline]) sample_line) as (_ & H);
      [vm_compute; reflexivity|exact H].
  - apply Hskip. right; right.
    apply (bool_decide_unpack _). vm_compute. exact I.
Defined.

(** C3: a line of 80 characters passes the filter of [parse_dof_file] and
    makes the parser, and with it the whole ingestion, raise [IndexError],
    as does every line of at most 118 characters. *)
Theorem parse_dof_line_raises_at_80 :
  length short_line = 80 ∧
  filter_line (short_line ++ [newline]) = Data short_line ∧
  parse_dof_line short_line = Raise IndexError ∧
  parse_dof_file [short_line ++ [newline]] = Raise IndexError ∧
  (∀ line : pystr, length line ≤ 118 → parse_dof_line line = Raise IndexError).
Proof.
  assert (filter_line (short_line ++ [newline]) = Data short_line) as Hdata
    by (vm_compute; reflexivity).
  split; [reflexivity|]. split; [done|].
  assert (parse_dof_line short_line = Raise IndexError) as Hraise
    by (apply parse_dof_line_short; vm_compute; lia).
  split; [done|]. split; [|apply parse_dof_line_short].
  unfold parse_dof_file. by rewrite parse_dof_file_from_cons, Hdata, Hraise.
Qed.

(** ** Purity of the record parser *)

Lemma item_Raise (s : pystr) (i : nat) (e : exn) :
  item s i = Raise e → e = IndexError.
Proof. unfold item. destruct (s !! i); [done|]. by intros [= <-]. Qed.

(** A call either raises what the parser raises and leaves the state as
    it was, or stores the parser's record in one new dict. *)
Lemma parse_dof_line_run (line : pystr) (w : Interp.world) :
  Interp.parse_dof_line line w =
    match parse_dof_line line with
    | Ok d =>
        let l := fresh (dom (Interp.heap w)) in
        (Ok l, {| Interp.heap := <[l := d]> (Interp.heap w);
                  Interp.stdout := Interp.stdout w |})
    | Raise e => (Raise e, w)
    end.
Proof.
  destruct (decide (118 < length line)) as [Hlen|Hlen].
  - unfold Interp.parse_dof_line, parse_dof_line, Interp.getitem.
    rewrite !item_slice by lia. reflexivity.
  - rewrite parse_dof_line_short by lia.
    unfold Interp.parse_dof_line, Interp.getitem.
    rewrite (item_short line 118) by lia.
    destruct (item line 10) as [?|e] eqn:E;
      [|apply item_Raise in E as ->; reflexivity].
    destruct (item line 46) as [?|e] eqn:E1;
      [|apply item_Raise in E1 as ->; reflexivity].
    destruct (item line 60) as [?|e] eqn:E2;
      [|apply item_Raise in E2 as ->; reflexivity].
    destruct (item line 81) as [?|e] eqn:E3;
      [|apply item_Raise in E3 as ->; reflexivity].
    destruct (item line 95) as [?|e] eqn:E4;
      [|apply item_Raise in E4 as ->; reflexivity].
    destruct (item line 97) as [?|e] eqn:E5;
      [|apply item_Raise in E5 as ->; reflexivity].
    destruct (item line 99) as [?|e] eqn:E6;
      [|apply item_Raise in E6 as ->; reflexivity].
    destruct (item line 101) as [?|e] eqn:E7;
      [|apply item_Raise in E7 as ->; reflexivity].
    reflexivity.
Qed.

(** C8: a call changes nothing but the heap, where it adds one dict and
    changes no object that was there; it writes nothing to standard
    output; when it raises, the state is as before.  What it returns or
    raises depends on the line only and is what [parse_dof_line] gives:
    in every state the call raises the same exception, or returns a
    reference to a new dict with the same contents, so two successive
    calls return distinct references to equal mappings. *)
Theorem parse_dof_line_pure (line : pystr) (w : Interp.world) :
  match Interp.parse_dof_line line w with
  | (Raise e, w1) =>
      w1 = w ∧ parse_dof_line line = Raise e ∧
      ∀ w', Interp.parse_dof_line line w' = (Raise e, w')
  | (Ok l1, w1) =>
      Interp.stdout w1 = Interp.stdout w ∧
      dom (Interp.heap w1) = {[l1]} ∪ dom (Interp.heap w) ∧
      Interp.heap w !! l1 = None ∧
      (∀ l, l ∈ dom (Interp.heap w) →
         Interp.heap w1 !! l = Interp.heap w !! l) ∧
      ∃ d, parse_dof_line line = Ok d ∧
        Interp.heap w1 !! l1 = Some d ∧
        (∀ w', ∃ l' w1', Interp.parse_dof_line line w' = (Ok l', w1') ∧
           Interp.heap w1' !! l' = Some d) ∧
        ∃ l2 w2, Interp.parse_dof_line line w1 = (Ok l2, w2) ∧
          l1 ≠ l2 ∧
          Interp.heap w2 !! l1 = Some d ∧ Interp.heap w2 !! l2 = Some d
  end.
Proof.
  rewrite parse_dof_line_run.
  destruct (parse_dof_line line) as [d|e] eqn:Hd; cbv zeta.
  - set (l1 := fresh (dom (Interp.heap w))).
    assert (l1 ∉ dom (Interp.heap w)) as Hl1 by apply is_fresh.
    split; [done|]. split; [apply dom_insert_L|].
    split; [by apply not_elem_of_dom|]. split.
    { intros l Hl. simpl. apply lookup_insert_ne. by intros ->. }
    exists d. split; [done|]. split; [apply lookup_insert_eq|]. split.
    { intros w'. eexists _, _. rewrite parse_dof_line_run, Hd.
      split; [reflexivity|]. apply lookup_insert_eq. }
    eexists _, _. rewrite parse_dof_line_run, Hd. split; [reflexivity|].
    cbv zeta. simpl.
    set (l2 := fresh (dom (<[l1 := d]> (Interp.heap w)))).
    assert (l2 ∉ dom (<[l1 := d]> (Interp.heap w))) as Hl2 by apply is_fresh.
    assert (l1 ≠ l2) as Hne.
    { intros Heq. apply Hl2. rewrite <- Heq, dom_insert_L. set_solver. }
    split; [done|]. split; [|apply lookup_insert_eq].
    rewrite lookup_insert_ne by done. apply lookup_insert_eq.
  - split; [done|]. split; [done|].
    intros w'. by rewrite parse_dof_line_run, Hd.
Qed.

Lemma parse_dof_line_pure_witness :
  ∃ l1 w1 l2 w2 d,
    Interp.parse_dof_line sample_line (Interp.World ∅ []) = (Ok l1, w1) ∧
    Interp.parse_dof_line sample_line w1 = (Ok l2, w2) ∧
    l1 ≠ l2 ∧ Interp.stdout w2 = [] ∧
    Interp.heap w2 !! l1 = Some d ∧ Interp.heap w2 !! l2 = Some d.
Proof.
  pose proof (parse_dof_line_pure sample_line (Interp.World ∅ [])) as H.
  destruct (Interp.parse_dof_line sample_line (Interp.World ∅ []))
    as [[l1|e] w1] eqn:Hcall.
  - destruct H as (Hout & _ & _ & _ & d & _ & _ & _ & l2 & w2 & Hcall2 & Hne
                   & H1 & H2).
    pose proof (parse_dof_line_pure sample_line w1) as H'.
    rewrite Hcall2 in H'. destruct H' as (Hout' & _).
    exists l1, w1, l2, w2, d. repeat split; try done.
    by rewrite Hout', Hout.
  - exfalso. rewrite parse_dof_line_run in Hcall.
    destruct (parse_dof_line_long sample_line) as (rec & Hrec & _);
      [vm_compute; lia|].
    by rewrite Hrec in Hcall.
Defined.

(** ** Properties of the coordinate converter *)

(** [float] on a few literals: plain and signed numbers, underscores and
    surrounding whitespace, the special values, overflow to an infinity,
    and strings it rejects.  [49.19] is [6922877052198584 * 2^-47]. *)
Example float_ascii_samples :
  float_ascii (str "45") = Ok 45%float ∧
  float_ascii (str " -1_0.5e+1 ") = Ok (-105)%float ∧
  float_ascii (str "inf") = Ok infinity ∧
  float_ascii (str "-Infinity") = Ok neg_infinity ∧
  float_ascii (str "1e400") = Ok infinity ∧
  float_ascii (str "") = Raise ValueError ∧
  float_ascii (str "1e") = Raise ValueError ∧
  float_ascii (str "4 5") = Raise ValueError ∧
  Prim2SF <$> float_ascii (str "49.19")
    = Ok (S754_finite false 6922877052198584 (-47)).
Proof. repeat split; vm_compute; reflexivity. Qed.

Lemma truediv_60 (x : float) : truediv x 60 = Ok (x / 60)%float.
Proof. reflexivity. Qed.

Lemma truediv_3600 (x : float) : truediv x 3600 = Ok (x / 3600)%float.
Proof. reflexivity. Qed.

Lemma ascii_upper_S (c : char) :
  ascii_upper c = 83%N ↔ c = 83%N ∨ c = 115%N.
Proof.
  unfold ascii_upper.
  destruct ((97 <=? c) && (c <=? 122))%N eqn:Hc.
  - apply andb_true_iff in Hc as [?%N.leb_le ?%N.leb_le]. lia.
  - split; [by left|]. intros [->| ->]; [done|discriminate].
Qed.

Lemma ascii_upper_W (c : char) :
  ascii_upper c = 87%N ↔ c = 87%N ∨ c = 119%N.
Proof.
  unfold ascii_upper.
  destruct ((97 <=? c) && (c <=? 122))%N eqn:Hc.
  - apply andb_true_iff in Hc as [?%N.leb_le ?%N.leb_le]. lia.
  - split; [by left|]. intros [->| ->]; [done|discriminate].
Qed.

Section converter_properties.
Variable float_unicode : pystr → result float.
Variable upper_unicode : char → pystr.

Abbreviation dms := (dms_to_decimal_degrees float_unicode upper_unicode).
Abbreviation float_of := (py_float float_unicode).
Abbreviation upper := (py_upper upper_unicode).
Abbreviation sub_field := (sub_field float_unicode).

Lemma sub_field_try_except (t : pystr) :
  sub_field t (try_except (float_of t) 0%float).
Proof.
  unfold sub_field. destruct (float_of t) as [v|e]; simpl; eauto.
Qed.

Lemma dms_unfold (d m s h : pystr) :
  dms d m s h =
    let v := (try_except (float_of d) 0 + try_except (float_of m) 0 / 60
              + try_except (float_of s) 0 / 3600)%float in
    Ok (if bool_decide (upper h ∈ [str "S"; str "W"])
        then (- v)%float else v).
Proof.
  unfold dms_to_decimal_degrees. by rewrite truediv_60, truediv_3600.
Qed.

Lemma py_upper_ascii (h : pystr) :
  forallb (λ c, c <? 128)%N h = true → upper h = ascii_upper <$> h.
Proof.
  unfold py_upper. induction h as [|c h IH]; simpl; [done|].
  intros [Hc Hh]%andb_true_iff. rewrite Hc. simpl. f_equal. by apply IH.
Qed.

Lemma in_S_W (u : pystr) :
  u ∈ [str "S"; str "W"] ↔ u = str "S" ∨ u = str "W".
Proof. rewrite !elem_of_cons, elem_of_nil. tauto. Qed.

(** C4: when the three sub-fields parse, the result is
    [degrees + minutes/60 + seconds/3600], negated when the upper-cased
    hemisphere is [S] or [W]; ["45","30","0","N"] gives [45.5], and
    ["117","5","49.19","W"] gives a number within [1e-4] of
    [-117.09699]. *)
Theorem dms_formula :
  (∀ d m s h x y z,
     float_of d = Ok x → float_of m = Ok y → float_of s = Ok z →
     let v := (x + y / 60 + z / 3600)%float in
     dms d m s h =
       Ok (if bool_decide (upper h ∈ [str "S"; str "W"])
           then (- v)%float else v) ∧
     dms d m s (str "S") = Ok (- v)%float ∧
     dms d m s (str "W") = Ok (- v)%float ∧
     dms d m s (str "N") = Ok v ∧
     dms d m s (str "E") = Ok v) ∧
  dms (str "45") (str "30") (str "0") (str "N") = Ok 45.5%float ∧
  ∃ r q, dms (str "117") (str "5") (str "49.19") (str "W") = Ok r ∧
    float_to_Q r = Some q ∧
    (Qabs (q - - (11709699 # 100000)) < 1 # 10000)%Q.
Proof.
  split; [|split].
  - intros d m s h x y z Hx Hy Hz v.
    rewrite !dms_unfold, Hx, Hy, Hz. done.
  - vm_compute. reflexivity.
  - eexists _, _. split; [vm_compute; reflexivity|].
    split; vm_compute; reflexivity.
Qed.

(** C5: every string input returns a number, never an exception; each
    sub-field contributes what [float] returns for it, or [0.0] when
    [float] raises, independently of the other two; four empty strings
    give [0.0]. *)
Theorem dms_lenient :
  (∀ d m s h, ∃ x y z,
     sub_field d x ∧ sub_field m y ∧ sub_field s z ∧
     dms d m s h =
       Ok (if bool_decide (upper h ∈ [str "S"; str "W"])
           then (- (x + y / 60 + z / 3600))%float
           else (x + y / 60 + z / 3600)%float)) ∧
  (∀ t v, sub_field t v → float_of t = Ok v ∨ v = 0%float) ∧
  (∃ e, float_of [] = Raise e) ∧
  dms [] [] [] [] = Ok 0%float.
Proof.
  split; [|split; [|split]].
  - intros d m s h. eexists _, _, _.
    split; [apply sub_field_try_except|].
    split; [apply sub_field_try_except|].
    split; [apply sub_field_try_except|]. apply dms_unfold.
  - intros t v [?|[_ ?]]; eauto.
  - by exists ValueError.
  - vm_compute. reflexivity.
Qed.

(** C6: the computed value is negated exactly when the upper-cased
    hemisphere is [S] or [W]; [S], [s], [W] and [w] negate, the empty
    string does not, and among ASCII strings no other one negates. *)
Theorem dms_hemisphere :
  (∀ d m s, ∃ v, ∀ h,
     dms d m s h =
       Ok (if bool_decide (upper h = str "S" ∨ upper h = str "W")
           then (- v)%float else v)) ∧
  (∀ h, h ∈ [str "S"; str "s"; str "W"; str "w"] →
     upper h = str "S" ∨ upper h = str "W") ∧
  upper [] = [] ∧
  (∀ h, forallb (λ c, c <? 128)%N h = true →
     upper h = str "S" ∨ upper h = str "W" ↔
     h ∈ [str "S"; str "s"; str "W"; str "w"]).
Proof.
  split; [|split; [|split]].
  - intros d m s. eexists. intros h. rewrite dms_unfold. simpl.
    by rewrite (bool_decide_ext _ _ (in_S_W (upper h))).
  - intros h Hh. rewrite !elem_of_cons, elem_of_nil in Hh.
    destruct Hh as [->|[->|[->|[->|[]]]]]; vm_compute; auto.
  - reflexivity.
  - intros h Hh. rewrite py_upper_ascii by done.
    rewrite !elem_of_cons, elem_of_nil.
    destruct h as [|c [|c' h]]; simpl.
    + split; [intros [|]; discriminate|].
      intros [|[|[|[|[]]]]]; discriminate.
    + change (str "S") with [83%N]. change (str "W") with [87%N].
      change (str "s") with [115%N]. change (str "w") with [119%N].
      pose proof (ascii_upper_S c) as HS.
      pose proof (ascii_upper_W c) as HW.
      split.
      * intros [[= Hc]|[= Hc]].
        -- apply HS in Hc as [->| ->]; auto.
        -- apply HW in Hc as [->| ->]; auto.
      * intros [[= ->]|[[= ->]|[[= ->]|[[= ->]|[]]]]]; vm_compute; auto.
    + split; [intros [|]; discriminate|].
      intros [|[|[|[|[]]]]]; discriminate.
Qed.
End converter_properties.

(** ** Magnitude bounds for binary64 arithmetic *)

Section float_bounds.
Local Open Scope Z_scope.

Lemma SF_below_mono (K K' : Z) (x : spec_float) :
  K <= K' -> SF_below K x -> SF_below K' x.
Proof. destruct x; simpl; lia. Qed.

Lemma fexp_unfold (e : Z) : fexp prec emax e = Z.max (e - 53) (-1074).
Proof. reflexivity. Qed.

Lemma digits2_pos_size (p : positive) : digits2_pos p = Pos.size p.
Proof. induction p; simpl; congruence. Qed.

Lemma digits2_pos_gt (p : positive) : Zpos p < 2 ^ Zpos (digits2_pos p).
Proof.
  rewrite digits2_pos_size. pose proof (Pos.size_gt p) as H.
  apply Pos2Z.pos_lt_pos in H. by rewrite Pos2Z.inj_pow in H.
Qed.

Lemma digits2_pos_le (p : positive) : 2 ^ (Zpos (digits2_pos p) - 1) <= Zpos p.
Proof.
  rewrite digits2_pos_size. pose proof (Pos.size_le p) as H.
  apply Pos2Z.pos_le_pos in H. rewrite Pos2Z.inj_pow in H.
  change (Zpos p~0) with (2 * Zpos p) in H.
  assert (2 ^ Zpos (Pos.size p) = 2 * 2 ^ (Zpos (Pos.size p) - 1)) as E.
  { rewrite <- Z.pow_succ_r by lia. f_equal. lia. }
  lia.
Qed.

Lemma Zdigits2_nonneg (m : Z) : 0 <= Zdigits2 m.
Proof. destruct m; simpl; lia. Qed.

Lemma Zdigits2_gt (m : Z) : 0 <= m -> m < 2 ^ Zdigits2 m.
Proof.
  destruct m as [|p|p]; simpl; [lia| |lia]. intros _. apply digits2_pos_gt.
Qed.

Lemma Zdigits2_le_of_lt (m k : Z) :
  0 <= m -> 0 <= k -> m < 2 ^ k -> Zdigits2 m <= k.
Proof.
  destruct m as [|p|p]; simpl; [lia| |lia]. intros _ Hk Hlt.
  pose proof (digits2_pos_le p) as Hle.
  assert (2 ^ (Zpos (digits2_pos p) - 1) < 2 ^ k) as H by lia.
  apply Z.pow_lt_mono_r_iff in H; lia.
Qed.

Lemma Zdigits2_succ (m : Z) : 0 <= m -> Zdigits2 (m + 1) <= Zdigits2 m + 1.
Proof.
  intros Hm. pose proof (Zdigits2_gt m Hm). pose proof (Zdigits2_nonneg m).
  apply Zdigits2_le_of_lt; [lia..|].
  rewrite Z.pow_add_r by lia. lia.
Qed.

Lemma Zdigits2_div_pow2 (m n : Z) :
  0 <= m -> 0 <= n -> Zdigits2 (m / 2 ^ n) <= Z.max 0 (Zdigits2 m - n).
Proof.
  intros Hm Hn. pose proof (Zdigits2_gt m Hm). pose proof (Zdigits2_nonneg m).
  assert (0 < 2 ^ n) by (apply Z.pow_pos_nonneg; lia).
  apply Zdigits2_le_of_lt; [apply Z.div_pos; lia|lia|].
  apply Z.div_lt_upper_bound; [lia|].
  destruct (Z.le_gt_cases n (Zdigits2 m)).
  - rewrite Z.max_r by lia. rewrite <- Z.pow_add_r by lia.
    by replace (n + (Zdigits2 m - n)) with (Zdigits2 m) by lia.
  - rewrite Z.max_l by lia.
    assert (2 ^ Zdigits2 m <= 2 ^ n) by (apply Z.pow_le_mono_r; lia). lia.
Qed.

(** *** Shifting right *)

Lemma shr_1_m (mrs : shr_record) :
  0 <= shr_m mrs -> shr_m (shr_1 mrs) = shr_m mrs / 2.
Proof.
  destruct mrs as [m r s]. destruct m as [|[p|p|]|p]; simpl; try lia;
    intros _; try reflexivity.
  - apply Z.div_unique with (r := 1); lia.
  - apply Z.div_unique with (r := 0); lia.
Qed.

Lemma iter_pos_shr_1_m (p : positive) (mrs : shr_record) :
  0 <= shr_m mrs ->
  shr_m (SpecFloat.iter_pos shr_1 p mrs) = shr_m mrs / 2 ^ Zpos p.
Proof.
  revert mrs. induction p as [p IH|p IH|]; intros mrs Hm;
    simpl SpecFloat.iter_pos.
  - assert (0 <= shr_m (shr_1 mrs))
      by (rewrite shr_1_m by done; apply Z.div_pos; lia).
    assert (0 < 2 ^ Zpos p) by (apply Z.pow_pos_nonneg; lia).
    assert (2 ^ Zpos p~1 = 2 * (2 ^ Zpos p * 2 ^ Zpos p)) as ->.
    { rewrite <- Z.pow_add_r, <- Z.pow_succ_r by lia. f_equal. lia. }
    rewrite IH; rewrite IH; try done.
    + rewrite shr_1_m by done. by rewrite !Z.div_div by lia.
    + apply Z.div_pos; lia.
  - assert (0 < 2 ^ Zpos p) by (apply Z.pow_pos_nonneg; lia).
    assert (2 ^ Zpos p~0 = 2 ^ Zpos p * 2 ^ Zpos p) as ->.
    { rewrite <- Z.pow_add_r by lia. f_equal. lia. }
    rewrite IH; rewrite IH; try done.
    + by rewrite !Z.div_div by lia.
    + apply Z.div_pos; lia.
  - rewrite shr_1_m by done. done.
Qed.

Lemma shr_record_of_loc_m (m : Z) (l : location) :
  shr_m (shr_record_of_loc m l) = m.
Proof. by destruct l as [|[]]. Qed.

(** [shr_fexp] keeps a mantissa non-negative and below [2^K]. *)
Lemma shr_fexp_bound (m e : Z) (l : location) (K : Z) :
  0 <= m -> Zdigits2 m + e <= K -> -1074 <= K ->
  let '(mrs, e') := shr_fexp prec emax m e l in
  0 <= shr_m mrs /\ Zdigits2 (shr_m mrs) + e' <= K /\
  e' = Z.max e (fexp prec emax (Zdigits2 m + e)).
Proof.
  intros Hm Hd HK. unfold shr_fexp, shr. rewrite fexp_unfold.
  destruct (Z.max (Zdigits2 m + e - 53) (-1074) - e) as [|n|n] eqn:Hn.
  - rewrite shr_record_of_loc_m. lia.
  - rewrite iter_pos_shr_1_m by (rewrite shr_record_of_loc_m; done).
    rewrite shr_record_of_loc_m.
    assert (0 < 2 ^ Zpos n) by (apply Z.pow_pos_nonneg; lia).
    pose proof (Zdigits2_div_pow2 m (Zpos n) Hm ltac:(lia)).
    split; [apply Z.div_pos; lia|]. lia.
  - rewrite shr_record_of_loc_m. lia.
Qed.

Lemma round_nearest_even_bound (m : Z) (l : location) :
  m <= round_nearest_even m l <= m + 1.
Proof.
  destruct l as [|[]]; simpl; try lia. destruct (Z.even m); lia.
Qed.

(** *** Rounding *)

Lemma binary_round_aux_bound (sx : bool) (m e : Z) (l : location) (K : Z) :
  0 <= m -> Zdigits2 m + e <= K -> e <= 971 -> -1074 <= K <= 1023 ->
  SF_below (K + 1) (binary_round_aux prec emax sx m e l).
Proof.
  intros Hm Hd He HK. unfold binary_round_aux.
  pose proof (shr_fexp_bound m e l K Hm Hd ltac:(lia)) as H1.
  destruct (shr_fexp prec emax m e l) as [mrs1 e1].
  destruct H1 as (Hm1 & Hd1 & He1). rewrite fexp_unfold in He1.
  set (m2 := round_nearest_even (shr_m mrs1) (loc_of_shr_record mrs1)).
  pose proof (round_nearest_even_bound (shr_m mrs1) (loc_of_shr_record mrs1))
    as Hm2. fold m2 in Hm2.
  assert (Zdigits2 m2 + e1 <= K + 1) as Hd2.
  { assert (m2 = shr_m mrs1 \/ m2 = shr_m mrs1 + 1) as [->| ->] by lia;
      [lia|]. pose proof (Zdigits2_succ _ Hm1). lia. }
  pose proof (shr_fexp_bound m2 e1 loc_Exact (K + 1) ltac:(lia) Hd2 ltac:(lia))
    as H3.
  destruct (shr_fexp prec emax m2 e1 loc_Exact) as [mrs3 e3].
  destruct H3 as (Hm3 & Hd3 & He3). rewrite fexp_unfold in He3.
  destruct (shr_m mrs3) as [|m3|m3] eqn:Hmrs3; simpl; [done| |lia].
  change (emax - prec) with 971.
  assert ((e3 <=? 971) = true) as -> by (apply Z.leb_le; lia).
  simpl. pose proof (Zdigits2_nonneg (Zpos m3)). simpl in *. lia.
Qed.

Lemma iter_xO_digits (m d : positive) :
  digits2_pos (Pos.iter xO m d) = (digits2_pos m + d)%positive.
Proof.
  induction d as [|d IH] using Pos.peano_ind.
  - simpl. lia.
  - rewrite Pos.iter_succ. simpl. rewrite IH. lia.
Qed.

Lemma iter_xO_value (m d : positive) :
  Zpos (Pos.iter xO m d) = Zpos m * 2 ^ Zpos d.
Proof.
  induction d as [|d IH] using Pos.peano_ind.
  - simpl. lia.
  - rewrite Pos.iter_succ, Pos2Z.inj_succ, Z.pow_succ_r by lia.
    change (Zpos (Pos.iter xO m d)~0) with (2 * Zpos (Pos.iter xO m d)).
    rewrite IH. lia.
Qed.

Lemma binary_round_bound (sx : bool) (m : positive) (e K : Z) :
  Zpos (digits2_pos m) + e <= K -> -1074 <= K <= 1023 ->
  SF_below (K + 1) (binary_round prec emax sx m e).
Proof.
  intros Hd HK. unfold binary_round, shl_align. rewrite fexp_unfold.
  destruct (Z.max (Zpos (digits2_pos m) + e - 53) (-1074) - e)
    as [|n|n] eqn:Hn.
  - apply binary_round_aux_bound; simpl; lia.
  - apply binary_round_aux_bound; simpl; lia.
  - apply binary_round_aux_bound; simpl; try lia.
    rewrite iter_xO_digits. lia.
Qed.

Lemma binary_normalize_bound (m e K : Z) (szero : bool) :
  Z.abs m < 2 ^ (K - e) -> 0 <= K - e -> -1074 <= K <= 1023 ->
  SF_below (K + 1) (binary_normalize prec emax m e szero).
Proof.
  intros Hm He HK.
  destruct m as [|p|p]; simpl; [done| |]; apply binary_round_bound; try lia.
  - pose proof (Zdigits2_le_of_lt (Zpos p) (K - e)). simpl in *. lia.
  - pose proof (Zdigits2_le_of_lt (Zpos p) (K - e)). simpl in *. lia.
Qed.

(** *** Addition *)

Lemma shl_align_value (m : positive) (e e' : Z) :
  e' <= e -> Zpos (fst (shl_align m e e')) = Zpos m * 2 ^ (e - e').
Proof.
  intros He. unfold shl_align.
  destruct (e' - e) as [|n|n] eqn:Hn; simpl.
  - replace (e - e') with 0 by lia. lia.
  - lia.
  - rewrite iter_xO_value. do 2 f_equal. lia.
Qed.

Lemma SFadd_bound (x y : spec_float) (K : Z) :
  SF_below K x -> SF_below K y -> -1074 <= K <= 1022 ->
  SF_below (K + 2) (SFadd prec emax x y).
Proof.
  intros Hx Hy HK.
  destruct x as [sx|sx| |sx mx ex], y as [sy|sy| |sy my ey]; try done.
  - by destruct sx, sy.
  - simpl in *. lia.
  - simpl in *. lia.
  - simpl in Hx, Hy. unfold SFadd.
    set (ez := Z.min ex ey).
    rewrite !shl_align_value by lia.
    replace (K + 2) with (K + 1 + 1) by lia.
    pose proof (digits2_pos_gt mx). pose proof (digits2_pos_gt my).
    assert (Zpos mx * 2 ^ (ex - ez) < 2 ^ (K - ez)) as Hmx.
    { apply Z.lt_le_trans with (2 ^ Zpos (digits2_pos mx) * 2 ^ (ex - ez)).
      - apply Z.mul_lt_mono_pos_r; [apply Z.pow_pos_nonneg; lia|done].
      - rewrite <- Z.pow_add_r by lia. apply Z.pow_le_mono_r; lia. }
    assert (Zpos my * 2 ^ (ey - ez) < 2 ^ (K - ez)) as Hmy.
    { apply Z.lt_le_trans with (2 ^ Zpos (digits2_pos my) * 2 ^ (ey - ez)).
      - apply Z.mul_lt_mono_pos_r; [apply Z.pow_pos_nonneg; lia|done].
      - rewrite <- Z.pow_add_r by lia. apply Z.pow_le_mono_r; lia. }
    assert (0 < Zpos mx * 2 ^ (ex - ez))
      by (apply Z.mul_pos_pos; [lia|apply Z.pow_pos_nonneg; lia]).
    assert (0 < Zpos my * 2 ^ (ey - ez))
      by (apply Z.mul_pos_pos; [lia|apply Z.pow_pos_nonneg; lia]).
    apply binary_normalize_bound; [|lia..].
    replace (K + 1 - ez) with (Z.succ (K - ez)) by lia.
    rewrite Z.pow_succ_r by lia.
    destruct sx, sy; simpl; lia.
Qed.

(** *** Division by a number of magnitude at least one *)

Lemma SFdiv_bound (x y : spec_float) (K : Z) :
  SF_below K x -> -1074 <= K <= 1023 ->
  match y with
  | S754_finite _ my ey => 1 <= Zpos (digits2_pos my) + ey
  | _ => False
  end ->
  SF_below (K + 1) (SFdiv prec emax x y).
Proof.
  intros Hx HK Hy.
  destruct y as [| | |sy my ey]; try done.
  destruct x as [sx|sx| |sx mx ex]; try done.
  simpl in Hx. unfold SFdiv, SFdiv_core_binary. rewrite fexp_unfold.
  set (d1 := Zdigits2 (Zpos mx)). set (d2 := Zdigits2 (Zpos my)).
  set (e' := Z.min (Z.max (d1 + ex - (d2 + ey) - 53) (-1074)) (ex - ey)).
  set (s := ex - ey - e').
  pose proof (digits2_pos_gt mx) as Hmx. pose proof (digits2_pos_le my) as Hmy.
  change (Zpos (digits2_pos mx)) with d1 in Hmx, Hx.
  change (Zpos (digits2_pos my)) with d2 in Hmy, Hy.
  assert (0 < d1) by (unfold d1; simpl; lia).
  assert (0 < d2) by (unfold d2; simpl; lia).
  assert (0 <= s) as Hs by (unfold s, e'; lia).
  assert (match s with
          | 0 => Zpos mx
          | Zpos _ => Z.shiftl (Zpos mx) s
          | Zneg _ => 0
          end = Zpos mx * 2 ^ s) as ->.
  { destruct s as [|n|n] eqn:Es; [lia| |lia]. by rewrite Z.shiftl_mul_pow2. }
  assert (0 < 2 ^ s) by (apply Z.pow_pos_nonneg; lia).
  assert (Zpos mx * 2 ^ s < 2 ^ (d1 + s)) as Hnum.
  { rewrite Z.pow_add_r by lia. apply Z.mul_lt_mono_pos_r; lia. }
  pose proof (Z.div_eucl_eq (Zpos mx * 2 ^ s) (Zpos my) ltac:(lia)) as Heucl.
  pose proof (Z.mod_pos_bound (Zpos mx * 2 ^ s) (Zpos my) ltac:(lia)) as Hmod.
  unfold Z.modulo in Hmod.
  destruct (Z.div_eucl (Zpos mx * 2 ^ s) (Zpos my)) as [q r].
  assert (0 <= q) as Hq by nia.
  assert (q < 2 ^ Z.max 0 (d1 + s - d2 + 1)) as Hqlt.
  { destruct (Z.le_gt_cases 0 (d1 + s - d2 + 1)).
    - rewrite Z.max_r by lia.
      assert (2 ^ (d1 + s) = 2 ^ (d2 - 1) * 2 ^ (d1 + s - d2 + 1)) as E.
      { rewrite <- Z.pow_add_r by lia. f_equal. lia. }
      assert (0 < 2 ^ (d1 + s - d2 + 1)) by (apply Z.pow_pos_nonneg; lia).
      nia.
    - rewrite Z.max_l by lia.
      assert (2 ^ (d1 + s) <= 2 ^ (d2 - 1)) by (apply Z.pow_le_mono_r; lia).
      simpl. nia. }
  apply Zdigits2_le_of_lt in Hqlt; [|lia..].
  apply binary_round_aux_bound; unfold e', s in *; lia.
Qed.

(** *** Primitive floats *)

Lemma SF_below_is_finite (x : float) (K : Z) :
  SF_below K (Prim2SF x) -> is_finite x = true.
Proof.
  intros Hx. unfold is_finite, is_nan, is_infinity.
  rewrite !FloatAxioms.eqb_spec, abs_spec.
  destruct (Prim2SF x) as [s|s| |s m e]; try done.
  unfold SFeqb. simpl. destruct s; simpl;
    by rewrite Z.compare_refl, Pos.compare_cont_refl.
Qed.

Lemma SF_below_opp (x : float) (K : Z) :
  SF_below K (Prim2SF x) -> SF_below K (Prim2SF (- x)).
Proof. rewrite opp_spec. by destruct (Prim2SF x). Qed.

Lemma SF_below_add (x y : float) (K : Z) :
  SF_below K (Prim2SF x) -> SF_below K (Prim2SF y) -> -1074 <= K <= 1022 ->
  SF_below (K + 2) (Prim2SF (x + y)).
Proof. rewrite add_spec. apply SFadd_bound. Qed.

Lemma SF_below_div_60 (x : float) (K : Z) :
  SF_below K (Prim2SF x) -> -1074 <= K <= 1023 ->
  SF_below (K + 1) (Prim2SF (x / 60)).
Proof.
  intros Hx HK. rewrite div_spec. apply SFdiv_bound; [done..|].
  vm_compute. discriminate.
Qed.

Lemma SF_below_div_3600 (x : float) (K : Z) :
  SF_below K (Prim2SF x) -> -1074 <= K <= 1023 ->
  SF_below (K + 1) (Prim2SF (x / 3600)).
Proof.
  intros Hx HK. rewrite div_spec. apply SFdiv_bound; [done..|].
  vm_compute. discriminate.
Qed.

Lemma SF_below_zero (K : Z) : SF_below K (Prim2SF 0).
Proof. vm_compute. exact I. Qed.

Lemma abs_le_magnitude_bound (x : float) :
  (abs x <=? magnitude_bound)%float = true -> SF_below 1001 (Prim2SF x).
Proof.
  rewrite leb_spec, abs_spec. pose proof (Prim2SF_valid x) as Hvalid.
  change (Prim2SF magnitude_bound)
    with (S754_finite false 4503599627370496 948).
  destruct (Prim2SF x) as [s|s| |s m e]; try done.
  change (SFabs (S754_finite s m e)) with (S754_finite false m e).
  unfold SFleb, SFcompare.
  apply andb_prop in Hvalid as [Hcanon _].
  unfold canonical_mantissa in Hcanon. apply Z.eqb_eq in Hcanon.
  rewrite fexp_unfold in Hcanon.
  destruct (Z.compare_spec e 948); intros Hle; cbn [SF_below]; [lia..|].
  discriminate.
Qed.

End float_bounds.

Lemma dms_lenient_witness :
  py_float (λ _, Raise ValueError) (str "abc") = Ok 0%float ∨
  0%float = 0%float.
Proof.
  apply (proj1 (proj2 (dms_lenient (λ _, Raise ValueError) (λ c, [c])))).
  right. split; [by exists ValueError|reflexivity].
Defined.

Lemma dms_hemisphere_witness :
  py_upper (λ c, [c]) (str "w") = str "S" ∨
  py_upper (λ c, [c]) (str "w") = str "W".
Proof.
  apply (proj1 (proj2 (dms_hemisphere (λ _, Raise ValueError) (λ c, [c])))).
  apply (bool_decide_unpack _). vm_compute. exact I.
Defined.

Lemma dms_formula_witness :
  dms_to_decimal_degrees (λ _, Raise ValueError) (λ c, [c])
    (str "32") (str "42") (str "10.00") (str "N")
  = Ok (32 + 42 / 60 + 10 / 3600)%float.
Proof.
  apply (proj1 (dms_formula (λ _, Raise ValueError) (λ c, [c]))
           (str "32") (str "42") (str "10.00") (str "N") 32 42 10)%float;
    vm_compute; reflexivity.
Defined.

(** C7 as stated fails: ["inf"] parses to an infinity, which is
    not a NaN, and the result is that infinity; and two sub-fields that
    parse to the largest finite number overflow to an infinity. *)
Lemma dms_not_always_finite :
  is_finite infinity = false ∧ is_nan infinity = false ∧
  ∀ float_unicode upper_unicode,
    py_float float_unicode (str "inf") = Ok infinity ∧
    py_float float_unicode (str "0") = Ok 0%float ∧
    dms_to_decimal_degrees float_unicode upper_unicode
      (str "inf") (str "0") (str "0") (str "N") = Ok infinity ∧
    ∃ big,
      py_float float_unicode (str "1.7976931348623157e308") = Ok big ∧
      is_finite big = true ∧
      dms_to_decimal_degrees float_unicode upper_unicode
        (str "1.7976931348623157e308") (str "1.7976931348623157e308")
        (str "0") (str "N") = Ok infinity.
Proof.
  split; [reflexivity|]. split; [reflexivity|]. intros fu uu.
  split; [reflexivity|]. split; [reflexivity|].
  split; [vm_compute; reflexivity|].
  eexists. split; [vm_compute; reflexivity|].
  split; vm_compute; reflexivity.
Qed.

Section converter_finite.
Variable float_unicode : pystr → result float.
Variable upper_unicode : char → pystr.

Lemma try_except_below (t : pystr) :
  (∀ x, py_float float_unicode t = Ok x →
     (abs x <=? magnitude_bound)%float = true) →
  SF_below 1001 (Prim2SF (try_except (py_float float_unicode t) 0%float)).
Proof.
  intros Ht. destruct (py_float float_unicode t) as [x|e]; simpl.
  - by apply abs_le_magnitude_bound, Ht.
  - apply (SF_below_zero 1001).
Qed.

(** C7, amended: when each of the three sub-fields either fails to parse
    or parses to a number of magnitude at most [2^1000], the converter
    returns a finite number. *)
Theorem dms_finite (d m s h : pystr) :
  (∀ x, py_float float_unicode d = Ok x →
     (abs x <=? magnitude_bound)%float = true) →
  (∀ x, py_float float_unicode m = Ok x →
     (abs x <=? magnitude_bound)%float = true) →
  (∀ x, py_float float_unicode s = Ok x →
     (abs x <=? magnitude_bound)%float = true) →
  ∃ r, dms_to_decimal_degrees float_unicode upper_unicode d m s h = Ok r ∧
    is_finite r = true.
Proof.
  intros Hd%try_except_below Hm%try_except_below Hs%try_except_below.
  rewrite dms_unfold. eexists. split; [reflexivity|].
  set (x := try_except (py_float float_unicode d) 0%float) in *.
  set (y := try_except (py_float float_unicode m) 0%float) in *.
  set (z := try_except (py_float float_unicode s) 0%float) in *.
  assert (SF_below 1006 (Prim2SF (x + y / 60 + z / 3600))) as Hsum.
  { apply (SF_below_add _ _ 1004); [| |lia].
    - apply (SF_below_add _ _ 1002); [|by apply (SF_below_div_60 _ 1001)|lia].
      eapply SF_below_mono; [|done]. lia.
    - eapply SF_below_mono; [|by apply (SF_below_div_3600 _ 1001)]. lia. }
  simpl. destruct (bool_decide _).
  - by eapply SF_below_is_finite, SF_below_opp.
  - by eapply SF_below_is_finite.
Qed.
End converter_finite.

Lemma dms_finite_witness :
  ∃ r, dms_to_decimal_degrees (λ _, Raise ValueError) (λ c, [c])
         (str "117") (str "5") (str "49.19") (str "W") = Ok r ∧
    is_finite r = true.
Proof.
  apply dms_finite; intros x Hx; vm_compute in Hx; injection Hx as <-;
    vm_compute; reflexivity.
Defined.

(** * Further properties *)

(** * Further properties of the code *)

(** ** The record parser: line length *)

Lemma slice_app_l (s extra : pystr) (a b : nat) :
  b ≤ length s → slice (s ++ extra) a b = slice s a b.
Proof. intros Hb. unfold slice. by rewrite take_app_le. Qed.

Lemma item_app_l (s extra : pystr) (i : nat) :
  i < length s → item (s ++ extra) i = item s i.
Proof. intros Hi. unfold item. by rewrite lookup_app_l. Qed.

(** X1: the parser returns exactly on the lines of at least 119
    characters and raises [IndexError] on all shorter ones; on a line of
    119 to 126 characters [julian_date] is the stripped rest of the line
    from column 121 on, empty for 119 and 120 characters. *)
Theorem parse_dof_line_threshold (line : pystr) :
  ((∃ rec, parse_dof_line line = Ok rec) ↔ 119 ≤ length line) ∧
  (parse_dof_line line = Raise IndexError ↔ length line < 119) ∧
  (∀ rec, parse_dof_line line = Ok rec → length line < 127 →
     rec !! "julian_date" = Some (strip (drop 120 line)) ∧
     (length line ≤ 120 → rec !! "julian_date" = Some [])).
Proof.
  split; [|split].
  - split.
    + intros [rec Hrec]. apply parse_dof_line_Ok_length in Hrec. lia.
    + intros Hlen.
      destruct (parse_dof_line_long line) as (rec & Hrec & _); [lia|eauto].
  - split.
    + intros Hraise. destruct (decide (length line < 119)) as [|Hlong]; [done|].
      destruct (parse_dof_line_long line) as (rec & Hrec & _); [lia|].
      congruence.
    + intros Hlen. apply parse_dof_line_short. lia.
  - intros rec Hrec Hlen.
    pose proof (parse_dof_line_Ok_length _ _ Hrec) as Hlong.
    destruct (parse_dof_line_long line Hlong) as (rec' & Hrec' & _ & Hfields).
    rewrite Hrec in Hrec'. injection Hrec' as <-.
    assert (columns 121 127 line = drop 120 line) as Hcols.
    { unfold columns. apply take_ge. rewrite length_drop. lia. }
    rewrite (Hfields "julian_date" 121 127), Hcols
      by (apply (bool_decide_unpack _); vm_compute; exact I).
    split; [done|]. intros Hle. by rewrite drop_ge by lia.
Qed.

(** X2: characters after column 127 are never read. *)
Theorem parse_dof_line_ignores_tail (line extra : pystr) :
  127 ≤ length line → parse_dof_line (line ++ extra) = parse_dof_line line.
Proof.
  intros Hlen. unfold parse_dof_line.
  rewrite !slice_app_l by lia. rewrite !item_app_l by lia. done.
Qed.

Lemma parse_dof_line_ignores_tail_witness :
  parse_dof_line (sample_line ++ str "   trailing remark")
  = parse_dof_line sample_line.
Proof. apply parse_dof_line_ignores_tail. vm_compute. lia. Defined.

(** ** The record parser: which columns a field depends on *)

Lemma ColumnSpec_Forall (P : string → nat → nat → Prop) :
  (∀ f a b, (f, a, b) ∈ ColumnSpec → P f a b) →
  Forall (λ x, P x.1.1 x.1.2 x.2) ColumnSpec.
Proof. intros HP. apply Forall_forall. intros [[f a] b] Hin. by apply HP. Qed.

(** X3: a character in a column that belongs to no field (a separator
    column, or any column after 127) does not influence the result. *)
Theorem parse_dof_line_ignores_separators (line : pystr) (i : nat) (c : char) :
  (∀ f a b, (f, a, b) ∈ ColumnSpec → ¬ (a ≤ i + 1 ≤ b)) →
  parse_dof_line (<[i := c]> line) = parse_dof_line line.
Proof.
  intros Hout. apply ColumnSpec_Forall in Hout. unfold ColumnSpec in Hout.
  repeat (apply Forall_cons_1 in Hout as [? Hout]). simpl in *.
  unfold parse_dof_line.
  rewrite !slice_insert_out by lia. rewrite !item_insert_ne by lia. done.
Qed.

Lemma parse_dof_line_ignores_separators_witness :
  parse_dof_line (<[9 := 88%N]> sample_line) = parse_dof_line sample_line.
Proof.
  apply parse_dof_line_ignores_separators. intros f a b Hin.
  repeat (apply elem_of_cons in Hin as [[= -> -> ->]|Hin]; [lia|]).
  by apply elem_of_nil in Hin.
Defined.

Lemma columns_insert_out (line : pystr) (a b i : nat) (c : char) :
  1 ≤ a → a ≤ b → ¬ (a ≤ i + 1 ≤ b) →
  columns a b (<[i := c]> line) = columns a b line.
Proof.
  intros Ha Hab Hi. rewrite <- !slice_columns by done.
  apply slice_insert_out. lia.
Qed.

Lemma ColumnSpec_disjoint (f g : string) (a b a' b' : nat) :
  (f, a, b) ∈ ColumnSpec → (g, a', b') ∈ ColumnSpec → f ≠ g →
  b < a' ∨ b' < a.
Proof.
  intros Hf Hg Hne.
  assert (Forall (λ x, Forall (λ y : string * nat * nat,
            x.1.1 = y.1.1 ∨ x.2 < y.1.2 ∨ y.2 < x.1.2) ColumnSpec)
          ColumnSpec) as Hall
    by (apply (bool_decide_unpack _); vm_compute; exact I).
  eapply Forall_forall in Hall; [|exact Hf].
  eapply Forall_forall in Hall; [|exact Hg]. simpl in Hall.
  destruct Hall as [?|?]; [done|lia].
Qed.

(** X4: changing a character inside the columns of one field changes no
    other field of the returned record. *)
Theorem parse_dof_line_field_frame (line : pystr) (i : nat) (c : char)
    (f : string) (a b : nat) (rec : gmap string pystr) :
  (f, a, b) ∈ ColumnSpec → a ≤ i + 1 ≤ b →
  parse_dof_line line = Ok rec →
  ∃ rec', parse_dof_line (<[i := c]> line) = Ok rec' ∧
    ∀ g, g ≠ f → rec' !! g = rec !! g.
Proof.
  intros Hf Hi Hrec.
  pose proof (parse_dof_line_Ok_length _ _ Hrec) as Hlen.
  destruct (parse_dof_line_long line Hlen) as (rec0 & Hrec0 & Hdom & Hfields).
  rewrite Hrec in Hrec0. injection Hrec0 as <-.
  destruct (parse_dof_line_long (<[i := c]> line))
    as (rec' & Hrec' & Hdom' & Hfields'); [by rewrite length_insert|].
  exists rec'. split; [done|]. intros g Hg.
  destruct (decide (g ∈ field_names)) as [Hin|Hout].
  - rewrite <- ColumnSpec_names in Hin.
    apply list_elem_of_fmap in Hin as (y & Hy & Hin).
    apply list_elem_of_fmap in Hin as ([[g0 a'] b'] & Hz & Hin).
    simpl in *. subst. simpl in *.
    rewrite (Hfields' _ _ _ Hin), (Hfields _ _ _ Hin).
    destruct (ColumnSpec_bounds _ _ _ Hin) as (? & ? & _).
    destruct (ColumnSpec_disjoint _ _ _ _ _ _ Hf Hin) as [?|?]; [done|..];
      by rewrite columns_insert_out by lia.
  - assert (g ∉ dom rec) as Hn
      by (rewrite Hdom; by rewrite elem_of_list_to_set).
    assert (g ∉ dom rec') as Hn'
      by (rewrite Hdom'; by rewrite elem_of_list_to_set).
    apply not_elem_of_dom in Hn, Hn'. by rewrite Hn, Hn'.
Qed.

Lemma parse_dof_line_field_frame_witness :
  ∃ rec', parse_dof_line (<[20 := 88%N]> sample_line) = Ok rec' ∧
    rec' !! "lon_sec" = Some (str "49.19").
Proof.
  destruct (parse_dof_line_column_exact sample_line)
    as (rec & Hrec & Hfields & _); [vm_compute; lia|].
  destruct (parse_dof_line_field_frame sample_line 20 88%N
              "city_name" 19 34 rec) as (rec' & Hrec' & Hframe);
    [apply (bool_decide_unpack _); vm_compute; exact I|lia|done|].
  exists rec'. split; [done|]. rewrite Hframe by done.
  destruct (Hfields "lon_sec" 56 60) as [-> _];
    [apply (bool_decide_unpack _); vm_compute; exact I|].
  vm_compute. reflexivity.
Defined.

(** ** The record parser: padding *)

Section padding.
Context (p : char → bool).

Lemma lstrip_with_all (s : pystr) :
  Forall (λ c, p c = true) s → lstrip_with p s = [].
Proof. induction 1 as [|c s Hc _ IH]; simpl; [done|]. by rewrite Hc. Qed.

Lemma lstrip_with_app (pre t : pystr) :
  Forall (λ c, p c = true) pre → lstrip_with p (pre ++ t) = lstrip_with p t.
Proof. induction 1 as [|c s Hc _ IH]; simpl; [done|]. by rewrite Hc. Qed.

Lemma lstrip_with_trimmed (t : pystr) :
  (∀ c, head t = Some c → p c = false) → lstrip_with p t = t.
Proof. destruct t as [|c t]; simpl; [done|]. intros Hc. by rewrite Hc. Qed.

Lemma rstrip_with_all (s : pystr) :
  Forall (λ c, p c = true) s → rstrip_with p s = [].
Proof.
  induction 1 as [|c s Hc _ IH]; simpl; [done|]. by rewrite IH, Hc.
Qed.

Lemma rstrip_with_app (s post : pystr) :
  Forall (λ c, p c = true) post → rstrip_with p (s ++ post) = rstrip_with p s.
Proof.
  intros Hpost. induction s as [|c s IH]; simpl.
  - by apply rstrip_with_all.
  - by rewrite IH.
Qed.

Lemma rstrip_with_trimmed (s : pystr) :
  (∀ c, last s = Some c → p c = false) → rstrip_with p s = s.
Proof.
  induction s as [|c s IH]; simpl; [done|]. intros Hlast.
  destruct s as [|c' s].
  - simpl. by rewrite Hlast.
  - rewrite IH; [done|]. intros x Hx. apply Hlast. by rewrite last_cons_cons.
Qed.
End padding.

(** Text without whitespace at its ends, padded with whitespace on both
    sides, strips back to the text. *)
Lemma strip_padded (pre v post : pystr) :
  Forall (λ c, isspace c = true) pre → Forall (λ c, isspace c = true) post →
  (∀ c, head v = Some c → isspace c = false) →
  (∀ c, last v = Some c → isspace c = false) →
  strip (pre ++ v ++ post) = v.
Proof.
  intros Hpre Hpost Hhead Hlast. unfold strip.
  rewrite lstrip_with_app by done. destruct v as [|c v].
  - simpl. by rewrite lstrip_with_all.
  - rewrite lstrip_with_trimmed by (intros x [= <-]; by apply Hhead).
    rewrite rstrip_with_app by done. by apply rstrip_with_trimmed.
Qed.

Lemma strip_nil_iff (s : pystr) :
  strip s = [] ↔ Forall (λ c, isspace c = true) s.
Proof.
  split.
  - intros Hs. destruct (strip_split s) as (pre & post & Heq & Hpre & Hpost).
    rewrite Hs in Heq. rewrite Heq. by apply Forall_app.
  - intros Hs. rewrite <- (app_nil_r s).
    by apply (strip_padded s [] []).
Qed.

Lemma parse_dof_line_field (line : pystr) (rec : gmap string pystr)
    (f : string) (a b : nat) :
  parse_dof_line line = Ok rec → (f, a, b) ∈ ColumnSpec →
  rec !! f = Some (strip (columns a b line)).
Proof.
  intros Hrec Hin. pose proof (parse_dof_line_Ok_length _ _ Hrec) as Hlen.
  destruct (parse_dof_line_long line Hlen) as (rec' & Hrec' & _ & Hfields).
  rewrite Hrec in Hrec'. injection Hrec' as <-. by apply Hfields.
Qed.

(** X5: a value with no whitespace at its ends that stands anywhere in
    the columns of its field, the other columns of the field being
    whitespace, is read back unchanged (inner whitespace included). *)
Theorem parse_dof_line_reads_padded (line : pystr) (rec : gmap string pystr)
    (f : string) (a b : nat) (pre v post : pystr) :
  parse_dof_line line = Ok rec → (f, a, b) ∈ ColumnSpec →
  columns a b line = pre ++ v ++ post →
  Forall (λ c, isspace c = true) pre → Forall (λ c, isspace c = true) post →
  (∀ c, head v = Some c → isspace c = false) →
  (∀ c, last v = Some c → isspace c = false) →
  rec !! f = Some v.
Proof.
  intros Hrec Hin Hcols Hpre Hpost Hhead Hlast.
  rewrite (parse_dof_line_field _ _ _ _ _ Hrec Hin), Hcols.
  by rewrite strip_padded.
Qed.

Lemma parse_dof_line_reads_padded_witness :
  ∃ rec, parse_dof_line sample_line = Ok rec ∧
    rec !! "city_name" = Some (str "SAN DIEGO").
Proof.
  destruct (parse_dof_line_long sample_line) as (rec & Hrec & _);
    [vm_compute; lia|].
  exists rec. split; [done|].
  apply (parse_dof_line_reads_padded sample_line rec "city_name" 19 34
           [] (str "SAN DIEGO") (replicate 7 32%N)); try done.
  - apply (bool_decide_unpack _). vm_compute. exact I.
  - apply (bool_decide_unpack _). vm_compute. exact I.
  - intros c [= <-]. reflexivity.
  - intros c [= <-]. reflexivity.
Defined.

(** X6: a field is the empty string exactly when all of its columns the
    line reaches hold whitespace. *)
Theorem parse_dof_line_blank_field (line : pystr) (rec : gmap string pystr)
    (f : string) (a b : nat) :
  parse_dof_line line = Ok rec → (f, a, b) ∈ ColumnSpec →
  rec !! f = Some [] ↔ Forall (λ c, isspace c = true) (columns a b line).
Proof.
  intros Hrec Hin. rewrite (parse_dof_line_field _ _ _ _ _ Hrec Hin).
  rewrite <- strip_nil_iff. split; [by intros [= ->]|by intros ->].
Qed.

Lemma parse_dof_line_blank_field_witness :
  ∃ rec, parse_dof_line (<[10 := 32%N]> sample_line) = Ok rec ∧
    rec !! "verification_status" = Some [].
Proof.
  destruct (parse_dof_line_long (<[10 := 32%N]> sample_line))
    as (rec & Hrec & _); [vm_compute; lia|].
  exists rec. split; [done|].
  apply (parse_dof_line_blank_field (<[10 := 32%N]> sample_line) rec
           "verification_status" 11 11 Hrec);
    apply (bool_decide_unpack _); vm_compute; exact I.
Defined.

(** ** File ingestion: which lines are parsed *)

Lemma list_to_set_singleton_iff (x : char) (s : pystr) :
  s ≠ [] → list_to_set s = ({[x]} : gset char) ↔ Forall (λ c, c = x) s.
Proof.
  intros Hne. split; [|by apply list_to_set_all_eq].
  intros Hset. apply Forall_forall. intros y Hy.
  apply (elem_of_list_to_set (C := gset char)) in Hy. rewrite Hset in Hy.
  by apply elem_of_singleton in Hy.
Qed.

(** X7: a raw line is handed to the parser exactly when, once its
    trailing newlines are removed, it is not blank, has at least 80
    characters, and its stripped text does not consist of dashes only; so
    a line of dashes with blanks around it is skipped too, and a line that
    mixes dashes with anything else is parsed. *)
Theorem filter_line_spec (raw line : pystr) :
  (filter_line raw = Data line ↔
     line = rstrip_chars [newline] raw ∧ strip line ≠ [] ∧
     80 ≤ length line ∧ ¬ Forall (λ c, c = dash) (strip line)) ∧
  (filter_line raw = Skip ↔
     strip (rstrip_chars [newline] raw) = [] ∨
     length (rstrip_chars [newline] raw) < 80 ∨
     Forall (λ c, c = dash) (strip (rstrip_chars [newline] raw))).
Proof.
  unfold filter_line. set (l := rstrip_chars [newline] raw).
  destruct (decide (strip l = [])) as [Hblank|Hblank].
  { rewrite bool_decide_eq_true_2 by done. simpl.
    split; split; try done; [intros (-> & ? & _); done|auto]. }
  rewrite bool_decide_eq_false_2 by done. simpl.
  destruct (Nat.ltb_spec (length l) 80) as [Hlen|Hlen].
  { split; split; try done; [intros (-> & _ & ? & _); lia|auto]. }
  pose proof (list_to_set_singleton_iff dash (strip l) Hblank) as Hdash.
  destruct (decide (list_to_set (strip l) = ({[dash]} : gset char)))
    as [Hset|Hset].
  - rewrite bool_decide_eq_true_2 by done.
    split; split; try done; [|tauto].
    intros (-> & _ & _ & Hn). tauto.
  - rewrite bool_decide_eq_false_2 by done. split; split.
    + intros [= <-]. tauto.
    + by intros (-> & _).
    + done.
    + intros [?|[?|?]]; [done|lia|tauto].
Qed.

Lemma rstrip_chars_newlines (raw : pystr) (n : nat) :
  rstrip_chars [newline] (raw ++ replicate n newline)
  = rstrip_chars [newline] raw.
Proof.
  unfold rstrip_chars. apply rstrip_with_app.
  apply Forall_replicate. apply bool_decide_eq_true_2, list_elem_of_here.
Qed.

Lemma filter_line_rstrip (raw raw' : pystr) :
  rstrip_chars [newline] raw = rstrip_chars [newline] raw' →
  filter_line raw = filter_line raw'.
Proof. intros Heq. unfold filter_line. by rewrite Heq. Qed.

(** ** File ingestion: the records *)

Lemma parse_dof_file_from_acc (f : list pystr)
    (acc : list (gmap string pystr)) :
  parse_dof_file_from f acc
  = (records ← parse_dof_file_from f []; Ok (acc ++ records)).
Proof.
  revert acc. induction f as [|raw f IH]; intros acc.
  - simpl. by rewrite app_nil_r.
  - rewrite !parse_dof_file_from_cons. destruct (filter_line raw) as [|line].
    + apply IH.
    + destruct (parse_dof_line line) as [rec|e]; simpl; [|done].
      rewrite (IH (acc ++ [rec])), (IH [rec]).
      destruct (parse_dof_file_from f []); simpl; [|done].
      by rewrite <- app_assoc.
Qed.



Lemma data_lines_cons (raw : pystr) (f : list pystr) :
  data_lines (raw :: f)
  = match filter_line raw with
    | Data line => line :: data_lines f
    | Skip => data_lines f
    end.
Proof. unfold data_lines. simpl. by destruct (filter_line raw). Qed.

Lemma data_lines_length (f : list pystr) : length (data_lines f) ≤ length f.
Proof.
  induction f as [|raw f IH]; [done|]. rewrite data_lines_cons.
  destruct (filter_line raw); simpl; lia.
Qed.

(** The loop either parses every data line, or stops at the first one
    the parser rejects. *)
Lemma parse_dof_file_cases (f : list pystr) :
  (Forall (λ line, 118 < length line) (data_lines f) ∧
   ∃ records, parse_dof_file f = Ok records ∧
     Forall2 (λ line rec, parse_dof_line line = Ok rec)
       (data_lines f) records) ∨
  (Exists (λ line, length line ≤ 118) (data_lines f) ∧
   parse_dof_file f = Raise IndexError).
Proof.
  unfold parse_dof_file. induction f as [|raw f IH].
  - left. split; [constructor|]. exists []. split; [done|constructor].
  - rewrite data_lines_cons, parse_dof_file_from_cons.
    destruct (filter_line raw) as [|line]; [done|].
    destruct (decide (118 < length line)) as [Hlen|Hlen].
    + destruct (parse_dof_line_long line Hlen) as (rec & Hrec & _).
      rewrite Hrec. simpl. rewrite parse_dof_file_from_acc.
      destruct IH as [(Hall & records & -> & Hrecs)|(Hex & ->)].
      * left. split; [by constructor|]. exists (rec :: records).
        split; [done|by constructor].
      * right. split; [by apply Exists_cons_tl|done].
    + right. split; [apply Exists_cons_hd; lia|].
      rewrite parse_dof_line_short by lia. done.
Qed.

(** X9: when the file parses, the list holds one record for each line
    that passed the filter, in the order of the file, each the parse of
    its line; it is never longer than the file. *)
Theorem parse_dof_file_records (f : list pystr)
    (records : list (gmap string pystr)) :
  parse_dof_file f = Ok records →
  Forall2 (λ line rec, parse_dof_line line = Ok rec) (data_lines f) records ∧
  length records = length (data_lines f) ∧
  length records ≤ length f.
Proof.
  intros Hok.
  destruct (parse_dof_file_cases f) as [(_ & records' & Hok' & Hrecs)|(_ & Hr)];
    [|congruence].
  rewrite Hok in Hok'. injection Hok' as <-.
  pose proof (Forall2_length _ _ _ Hrecs) as Hlen.
  pose proof (data_lines_length f). split; [done|]. lia.
Qed.

Lemma data_lines_min (f : list pystr) :
  Forall (λ line, 80 ≤ length line) (data_lines f).
Proof.
  apply Forall_forall. intros line Hin. unfold data_lines in Hin.
  apply list_elem_of_omap in Hin as (raw & _ & Hraw).
  destruct (filter_line raw) as [|l] eqn:Hf; [done|].
  injection Hraw as ->. by apply filter_line_Data in Hf as (_ & _ & ? & _).
Qed.

(** From the path: [open] raises; or a line that passed the filter is too
    short for the parser; or the loop reaches the end of what the file
    yields, where the iteration may still raise. *)
Lemma disk_parse_dof_file_cases (open : pystr → result text_file)
    (filename : pystr) :
  (∃ e, open filename = Raise e ∧
     Disk.parse_dof_file open filename = Raise e) ∨
  ∃ f, open filename = Ok f ∧
    ((Exists (λ line, 80 ≤ length line ≤ 118) (data_lines (file_lines f)) ∧
      Disk.parse_dof_file open filename = Raise IndexError) ∨
     (Forall (λ line, 119 ≤ length line) (data_lines (file_lines f)) ∧
      ∃ records, parse_dof_file (file_lines f) = Ok records ∧
        Disk.parse_dof_file open filename =
          match file_error f with
          | Some e => Raise e
          | None => Ok records
          end)).
Proof.
  unfold Disk.parse_dof_file.
  destruct (open filename) as [f|e]; [right|left; by exists e].
  exists f. split; [done|]. cbn [mbind result_bind].
  pose proof (data_lines_min (file_lines f)) as Hmin.
  destruct (parse_dof_file_cases (file_lines f))
    as [(Hall & records & Hok & _)|(Hex & Hr)].
  - right. split; [eapply Forall_impl; [done|]; simpl; intros; lia|].
    exists records. split; [done|]. unfold parse_dof_file in Hok.
    by rewrite Hok.
  - left. unfold parse_dof_file in Hr. rewrite Hr. split; [|done].
    apply Exists_exists in Hex as (l & Hl & ?). apply Exists_exists.
    exists l. split; [done|]. eapply Forall_forall in Hmin; [|done]. lia.
Qed.

Lemma short_and_long (lines : list pystr) :
  Exists (λ line, 80 ≤ length line ≤ 118) lines →
  Forall (λ line, 119 ≤ length line) lines → False.
Proof.
  intros (l & Hl & ?)%Exists_exists Hall.
  eapply Forall_forall in Hall; [|done]. simpl in Hall. lia.
Qed.

(** X10: from the path of the file, [parse_dof_file] raises [e] exactly
    when [open] raises [e], or the file opens and either some line that
    passed the filter has fewer than 119 characters and [e] is
    [IndexError], or all of them are long enough and the iteration over
    the file ends in [e]; it returns exactly when the file opens, the
    iteration reaches the end of the file, and every line that passed the
    filter has at least 119 characters, and then it returns the records
    of the lines. *)
Theorem parse_dof_file_raises_iff (open : pystr → result text_file)
    (filename : pystr) :
  (∀ e, Disk.parse_dof_file open filename = Raise e ↔
     open filename = Raise e ∨
     ∃ f, open filename = Ok f ∧
       (e = IndexError ∧
        Exists (λ line, 80 ≤ length line ≤ 118) (data_lines (file_lines f)) ∨
        file_error f = Some e ∧
        Forall (λ line, 119 ≤ length line) (data_lines (file_lines f)))) ∧
  (∀ records, Disk.parse_dof_file open filename = Ok records ↔
     ∃ f, open filename = Ok f ∧ file_error f = None ∧
       parse_dof_file (file_lines f) = Ok records) ∧
  ((∃ records, Disk.parse_dof_file open filename = Ok records) ↔
     ∃ f, open filename = Ok f ∧ file_error f = None ∧
       Forall (λ line, 119 ≤ length line) (data_lines (file_lines f))).
Proof.
  destruct (disk_parse_dof_file_cases open filename)
    as [(e0 & Hopen & ->)
       |(f & Hopen & [(Hex & ->)|(Hall & records & Hok & ->)])].
  - split; [|split].
    + intros e. split; [intros [= <-]; by left|].
      intros [He|(f & Hf & _)]; congruence.
    + intros records. split; [done|]. intros (f & Hf & _). congruence.
    + split; [by intros [? ?]|]. intros (f & Hf & _). congruence.
  - split; [|split].
    + intros e. split.
      * intros [= <-]. right. exists f. split; [done|]. by left.
      * intros [He|(f' & Hf' & Hcase)]; [congruence|].
        assert (f' = f) as -> by congruence.
        destruct Hcase as [[-> _]|[_ Hall]]; [done|].
        destruct (short_and_long _ Hex Hall).
    + intros records. split; [done|]. intros (f' & Hf' & _ & Hok).
      assert (f' = f) as -> by congruence.
      destruct (parse_dof_file_cases (file_lines f))
        as [(Hall & _)|(_ & Hr)]; [|congruence].
      exfalso. apply Exists_exists in Hex as (l & Hl & ?).
      eapply Forall_forall in Hall; [|done]. simpl in Hall. lia.
    + split; [by intros [? ?]|]. intros (f' & Hf' & _ & Hall).
      assert (f' = f) as -> by congruence.
      destruct (short_and_long _ Hex Hall).
  - split; [|split].
    + intros e. split.
      * destruct (file_error f) as [e'|] eqn:He'; [|done].
        intros [= <-]. right. exists f. split; [done|]. by right.
      * intros [He|(f' & Hf' & Hcase)]; [congruence|].
        assert (f' = f) as -> by congruence.
        destruct Hcase as [[_ Hex]|[-> _]]; [|done].
        destruct (short_and_long _ Hex Hall).
    + intros records'. split.
      * destruct (file_error f) as [e'|] eqn:He'; [done|].
        intros [= <-]. by exists f.
      * intros (f' & Hf' & He' & Hok').
        assert (f' = f) as -> by congruence. rewrite He'. congruence.
    + split.
      * destruct (file_error f) as [e'|] eqn:He'; [by intros [? ?]|].
        intros _. by exists f.
      * intros (f' & Hf' & He' & _).
        assert (f' = f) as -> by congruence. rewrite He'. by exists records.
Qed.

(** X11: two files whose lines agree up to trailing newlines give the
    same result; so the last line need not end in a newline. *)
Theorem parse_dof_file_newlines (f f' : list pystr) :
  Forall2 (λ raw raw',
    rstrip_chars [newline] raw = rstrip_chars [newline] raw') f f' →
  parse_dof_file f = parse_dof_file f'.
Proof.
  unfold parse_dof_file. generalize (@nil (gmap string pystr)).
  intros acc Hff. revert acc.
  induction Hff as [|raw raw' f f' Hraw _ IH]; intros acc; [done|].
  rewrite !parse_dof_file_from_cons, (filter_line_rstrip _ _ Hraw).
  destruct (filter_line raw') as [|line]; [apply IH|].
  destruct (parse_dof_line line); simpl; [apply IH|done].
Qed.

Lemma sample_file_parses : ∃ records, parse_dof_file sample_file = Ok records.
Proof.
  destruct (parse_dof_file_cases sample_file)
    as [(_ & records & Hok & _)|(Hex & _)]; [eauto|].
  apply (bool_decide_pack _) in Hex. vm_compute in Hex. done.
Qed.

Lemma parse_dof_file_records_witness :
  ∃ records, parse_dof_file sample_file = Ok records ∧ length records = 2.
Proof.
  destruct sample_file_parses as [records Hok]. exists records.
  split; [done|].
  destruct (parse_dof_file_records sample_file records Hok) as (_ & -> & _).
  vm_compute. reflexivity.
Defined.

Lemma parse_dof_file_newlines_witness :
  parse_dof_file [sample_line] = parse_dof_file [sample_line ++ [newline]].
Proof.
  apply parse_dof_file_newlines. constructor; [|constructor].
  vm_compute. reflexivity.
Defined.

(** ** The map plotter *)

Lemma eqb_zero_inv (x : float) :
  (x =? 0)%float = true → x = 0%float ∨ x = (-0)%float.
Proof.
  rewrite FloatAxioms.eqb_spec. intros H.
  rewrite <- (SF2Prim_Prim2SF x).
  change (Prim2SF 0) with (S754_zero false) in H.
  destruct (Prim2SF x) as [[]|[]| |[] m e]; try discriminate H; auto.
Qed.

Lemma zero_coordinate (x y z : float) :
  (x =? 0)%float = true → (y =? 0)%float = true → (z =? 0)%float = true →
  ((x + y / 60 + z / 3600) =? 0)%float = true ∧
  ((- (x + y / 60 + z / 3600)) =? 0)%float = true.
Proof.
  intros [->| ->]%eqb_zero_inv [->| ->]%eqb_zero_inv [->| ->]%eqb_zero_inv;
    split; reflexivity.
Qed.

Section plotter_properties.
Variable float_unicode : pystr → result float.
Variable upper_unicode : char → pystr.
Context `{Folium}.

Abbreviation dms := (dms_to_decimal_degrees float_unicode upper_unicode).
Abbreviation plot_obstacle := (plot_obstacle float_unicode upper_unicode).
Abbreviation plot_from := (plot_from float_unicode upper_unicode).
Abbreviation create_obstacle_map :=
  (create_obstacle_map float_unicode upper_unicode).
Abbreviation main := (main float_unicode upper_unicode).

Lemma dms_Ok (d m s h : pystr) : ∃ v, dms d m s h = Ok v.
Proof. rewrite dms_unfold. eauto. Qed.

Lemma getitem_Done (obs : gmap string pystr) (k : string) (v : pystr) :
  obs !! k = Some v → getitem obs k = Done v.
Proof. intros Hk. unfold getitem. by rewrite Hk. Qed.

Lemma getitem_Fail (obs : gmap string pystr) (k : string) :
  obs !! k = None → getitem obs k = Fail (KeyError k).
Proof. intros Hk. unfold getitem. by rewrite Hk. Qed.


Ltac run_dms :=
  match goal with
  | |- context [propagate (dms ?d ?m ?s ?h)] =>
      let v := fresh "coord" in
      let Hv := fresh "Hcoord" in
      destruct (dms_Ok d m s h) as [v Hv]; rewrite Hv
  end.


Lemma parse_dof_file_full_records (f : list pystr)
    (records : list (gmap string pystr)) :
  parse_dof_file f = Ok records →
  Forall (λ rec, dom rec = list_to_set field_names) records.
Proof.
  intros Hok.
  destruct (parse_dof_file_cases f) as [(_ & records' & Hok' & Hrecs)|(_ & Hr)];
    [|congruence].
  rewrite Hok in Hok'. injection Hok' as <-.
  apply Forall_forall. intros rec Hin.
  apply list_elem_of_lookup in Hin as [i Hi].
  destruct (Forall2_lookup_r _ _ _ _ _ Hrecs Hi) as (line & _ & Hrec).
  pose proof (parse_dof_line_Ok_length _ _ Hrec) as Hlen.
  destruct (parse_dof_line_long line Hlen) as (rec' & Hrec' & Hdom & _).
  congruence.
Qed.





Lemma plot_from_reliable (data : list (gmap string pystr))
    (stdout : list printed) (obstacle_map : folium_map) :
  (∀ mk m, is_Some (add_marker mk m)) →
  Forall (λ rec, dom rec = list_to_set field_names) data →
  ∃ m, snd (plot_from data stdout obstacle_map) = Done m.
Proof.
  intros Hadd Hfull. revert stdout obstacle_map.
  induction Hfull as [|obs data Hobs _ IH]; intros stdout obstacle_map.
  - by exists obstacle_map.
  - simpl. destruct (plot_obstacle obs obstacle_map) as [m|e] eqn:Hplot;
      [apply IH|].
    exfalso. revert Hplot. unfold plot_obstacle.
    repeat match goal with
      | |- context [getitem obs ?k] =>
          let v := fresh "v" in
          let Hv := fresh "Hv" in
          destruct (obs !! k) as [v|] eqn:Hv;
          [ rewrite (getitem_Done obs k v Hv)
          | apply not_elem_of_dom in Hv; destruct Hv; rewrite Hobs;
            apply (bool_decide_unpack _); vm_compute; exact I ]
      end.
    cbn [mbind outcome_bind]. run_dms. cbn [mbind outcome_bind propagate].
    run_dms. cbn [mbind outcome_bind propagate].
    destruct (_ && _); [done|].
    match goal with
    | |- context [add_marker ?mk ?m] => destruct (Hadd mk m) as [m' ->]
    end. done.
Qed.

Lemma create_obstacle_map_reliable (data : list (gmap string pystr))
    (map_filename : pystr) :
  (∀ mk m, is_Some (add_marker mk m)) →
  (∀ m map_filename, save m map_filename = true) →
  Forall (λ rec, dom rec = list_to_set field_names) data →
  ∃ m, snd (create_obstacle_map data map_filename) = Done m.
Proof.
  intros Hadd Hsave Hfull. unfold create_obstacle_map.
  destruct (plot_from_reliable data [] (new_map map_center 5) Hadd Hfull)
    as [m Hm].
  destruct (plot_from data [] (new_map map_center 5)) as [stdout r].
  simpl in Hm. subst r. rewrite Hsave. by exists m.
Qed.


Lemma plot_from_cons (obs : gmap string pystr)
    (data : list (gmap string pystr)) (stdout : list printed)
    (obstacle_map : folium_map) :
  plot_from (obs :: data) stdout obstacle_map =
    match plot_obstacle obs obstacle_map with
    | Done m => plot_from data (stdout ++ [PrintObs obs]) m
    | Fail e => (stdout ++ [PrintObs obs], Fail e)
    end.
Proof. reflexivity. Qed.

(** X15: a record that lacks one of the eight coordinate keys, and has
    those read before it, raises [KeyError] for that key; when it is the
    first record, it is printed, nothing is saved and no message follows. *)
Theorem plot_obstacle_missing_key (obs : gmap string pystr)
    (obstacle_map : folium_map) (i : nat) (k : string) :
  coordinate_keys !! i = Some k →
  (∀ k', k' ∈ take i coordinate_keys → is_Some (obs !! k')) →
  obs !! k = None →
  plot_obstacle obs obstacle_map = Fail (KeyError k) ∧
  ∀ rest map_filename,
    create_obstacle_map (obs :: rest) map_filename =
      ([PrintObs obs], Fail (KeyError k)).
Proof.
  intros Hi Hpre Hk.
  assert (∀ m, plot_obstacle obs m = Fail (KeyError k)) as Hplot.
  { intros m. unfold plot_obstacle.
    destruct i as [|[|[|[|[|[|[|[|i]]]]]]]]; simpl in Hi; try discriminate Hi;
      injection Hi as <-;
      repeat match goal with
        | |- context [getitem obs ?k'] =>
            let Hv := fresh "Hv" in
            destruct (Hpre k' ltac:(apply (bool_decide_unpack _);
                                    vm_compute; exact I)) as [? Hv];
            rewrite (getitem_Done obs k' _ Hv)
        end;
      rewrite (getitem_Fail obs _ Hk); cbn [mbind outcome_bind];
      repeat (run_dms; cbn [mbind outcome_bind propagate]); reflexivity. }
  split; [apply Hplot|]. intros rest map_filename.
  unfold create_obstacle_map. by rewrite plot_from_cons, Hplot.
Qed.

Lemma try_except_zero (t : pystr) :
  (∀ x, py_float float_unicode t = Ok x → (x =? 0)%float = true) →
  (try_except (py_float float_unicode t) 0 =? 0)%float = true.
Proof. intros Ht. destruct (py_float _ t); simpl; [by apply Ht|done]. Qed.

Lemma dms_zero (d m s h : pystr) :
  (∀ x, py_float float_unicode d = Ok x → (x =? 0)%float = true) →
  (∀ x, py_float float_unicode m = Ok x → (x =? 0)%float = true) →
  (∀ x, py_float float_unicode s = Ok x → (x =? 0)%float = true) →
  ∃ v, dms d m s h = Ok v ∧ (v =? 0)%float = true.
Proof.
  intros Hd%try_except_zero Hm%try_except_zero Hs%try_except_zero.
  rewrite dms_unfold. cbv zeta.
  destruct (zero_coordinate _ _ _ Hd Hm Hs) as [Hpos Hneg].
  destruct (bool_decide _); eauto.
Qed.

(** X16: a record whose six numeric coordinate sub-fields each fail to
    parse or parse to zero is skipped: the map is left as it was, none
    of the label keys is read, and the loop goes on with the next record. *)
Theorem plot_obstacle_skips_origin (obs : gmap string pystr)
    (obstacle_map : folium_map)
    (lat_deg lat_min lat_sec lat_hem lon_deg lon_min lon_sec lon_hem : pystr) :
  obs !! "lat_deg" = Some lat_deg → obs !! "lat_min" = Some lat_min →
  obs !! "lat_sec" = Some lat_sec → obs !! "lat_hem" = Some lat_hem →
  obs !! "lon_deg" = Some lon_deg → obs !! "lon_min" = Some lon_min →
  obs !! "lon_sec" = Some lon_sec → obs !! "lon_hem" = Some lon_hem →
  Forall (λ t, ∀ x, py_float float_unicode t = Ok x → (x =? 0)%float = true)
    [lat_deg; lat_min; lat_sec; lon_deg; lon_min; lon_sec] →
  plot_obstacle obs obstacle_map = Done obstacle_map ∧
  ∀ rest stdout,
    plot_from (obs :: rest) stdout obstacle_map =
      plot_from rest (stdout ++ [PrintObs obs]) obstacle_map.
Proof.
  intros H1 H2 H3 H4 H5 H6 H7 H8 Hzero.
  assert (plot_obstacle obs obstacle_map = Done obstacle_map) as Hplot.
  { apply Forall_cons in Hzero as [Z1 Hzero].
    apply Forall_cons in Hzero as [Z2 Hzero].
    apply Forall_cons in Hzero as [Z3 Hzero].
    apply Forall_cons in Hzero as [Z4 Hzero].
    apply Forall_cons in Hzero as [Z5 Hzero].
    apply Forall_cons in Hzero as [Z6 _].
    destruct (dms_zero lat_deg lat_min lat_sec lat_hem Z1 Z2 Z3)
      as (lat & Hlat & Hlat0).
    destruct (dms_zero lon_deg lon_min lon_sec lon_hem Z4 Z5 Z6)
      as (lon & Hlon & Hlon0).
    unfold plot_obstacle.
    rewrite (getitem_Done obs _ _ H1), (getitem_Done obs _ _ H2),
      (getitem_Done obs _ _ H3), (getitem_Done obs _ _ H4),
      (getitem_Done obs _ _ H5), (getitem_Done obs _ _ H6),
      (getitem_Done obs _ _ H7), (getitem_Done obs _ _ H8).
    cbn [mbind outcome_bind]. rewrite Hlat.
    cbn [mbind outcome_bind propagate]. rewrite Hlon.
    cbn [mbind outcome_bind propagate]. by rewrite Hlat0, Hlon0. }
  split; [done|]. intros rest stdout. by rewrite plot_from_cons, Hplot.
Qed.

Lemma plot_from_stdout (data : list (gmap string pystr))
    (stdout : list printed) (obstacle_map : folium_map) :
  ∃ n, n ≤ length data ∧
    fst (plot_from data stdout obstacle_map)
      = stdout ++ (PrintObs <$> take n data) ∧
    (∀ m, snd (plot_from data stdout obstacle_map) = Done m →
       n = length data) ∧
    (∀ e, snd (plot_from data stdout obstacle_map) = Fail e → 0 < n).
Proof.
  revert stdout obstacle_map.
  induction data as [|obs data IH]; intros stdout obstacle_map.
  - exists 0. simpl. rewrite app_nil_r. by repeat split.
  - rewrite plot_from_cons.
    destruct (plot_obstacle obs obstacle_map) as [m|e].
    + destruct (IH (stdout ++ [PrintObs obs]) m) as (n & Hn & Hout & Hd & Hf).
      exists (S n). simpl. rewrite Hout, <- app_assoc.
      split; [lia|]. split; [done|]. split; [|intros; lia].
      intros m' Hm'. f_equal. by eapply Hd.
    + exists 1. simpl.
      split; [lia|]. split; [done|]. split; [done|lia].
Qed.

(** X17: what [create_obstacle_map] prints: when it completes, every
    record in order and then the line naming the saved file; when it
    raises, the records up to the one it stopped at, or all of them, and
    no such line. *)
Theorem create_obstacle_map_prints (data : list (gmap string pystr))
    (map_filename : pystr) :
  (∀ m, snd (create_obstacle_map data map_filename) = Done m →
     fst (create_obstacle_map data map_filename)
       = (PrintObs <$> data)
         ++ [PrintText (str "Map saved to " ++ map_filename)]) ∧
  (∀ e, snd (create_obstacle_map data map_filename) = Fail e →
     ∃ n, n ≤ length data ∧
       fst (create_obstacle_map data map_filename)
         = PrintObs <$> take n data).
Proof.
  unfold create_obstacle_map.
  destruct (plot_from_stdout data [] (new_map map_center 5))
    as (n & Hn & Hout & Hd & _).
  destruct (plot_from data [] (new_map map_center 5)) as [stdout [m|e]];
    simpl in *.
  - rewrite (Hd m eq_refl), firstn_all in Hout. subst stdout.
    destruct (save m map_filename); simpl; split; try done.
    intros _ _. exists (length data). by rewrite firstn_all.
  - split; [done|]. intros _ _. exists n. by subst stdout.
Qed.
End plotter_properties.

Lemma sample_file_plots :
  ∃ records markers,
    parse_dof_file sample_file = Ok records ∧
    snd (create_obstacle_map (λ _, Raise ValueError) (λ c, [c])
           (H := recording_folium) records (str "obstacles_map.html"))
      = Done markers.
Proof.
  destruct sample_file_parses as [records Hok]. exists records.
  destruct (create_obstacle_map_reliable (λ _, Raise ValueError) (λ c, [c])
              (H := recording_folium) records (str "obstacles_map.html"))
    as [m Hm]; [by eexists|done|by eapply parse_dof_file_full_records|].
  by exists m.
Qed.



Lemma plot_obstacle_missing_key_witness :
  plot_obstacle (λ _, Raise ValueError) (λ c, [c]) (H := recording_folium)
    (delete "lat_sec" blank_coordinates) [] = Fail (KeyError "lat_sec").
Proof.
  apply (plot_obstacle_missing_key _ _ _ _ 2 "lat_sec"); [done| |done].
  intros k' Hk'.
  change (take 2 coordinate_keys) with ["lat_deg"; "lat_min"] in Hk'.
  rewrite !elem_of_cons, elem_of_nil in Hk'.
  destruct Hk' as [->|[->|[]]]; eexists; vm_compute; reflexivity.
Defined.

Lemma plot_obstacle_skips_origin_witness :
  plot_obstacle (λ _, Raise ValueError) (λ c, [c]) (H := recording_folium)
    blank_coordinates [] = Done [].
Proof.
  eapply (plot_obstacle_skips_origin (λ _, Raise ValueError) (λ c, [c])
            (H := recording_folium) blank_coordinates []); [reflexivity..|].
  repeat constructor; intros x Hx; vm_compute in Hx;
    first [discriminate Hx | by injection Hx as <-].
Defined.

Lemma Forall2_sublist_r {A B : Type} (R : A → B → Prop)
    (l : list A) (k k' : list B) :
  Forall2 R l k → k' `sublist_of` k →
  ∃ l', l' `sublist_of` l ∧ Forall2 R l' k'.
Proof.
  intros HR Hsub. revert l HR.
  induction Hsub as [|y k' k _ IH|y k' k _ IH]; intros l HR.
  - exists []. split; [apply sublist_nil_l|constructor].
  - apply Forall2_cons_inv_r in HR as (x & l0 & Hxy & HR & ->).
    destruct (IH l0 HR) as (l' & Hl' & HR').
    exists (x :: l'). split; [by constructor|by constructor].
  - apply Forall2_cons_inv_r in HR as (x & l0 & Hxy & HR & ->).
    destruct (IH l0 HR) as (l' & Hl' & HR').
    exists l'. split; [by constructor|done].
Qed.

Section recorded_markers.
Variable float_unicode : pystr → result float.
Variable upper_unicode : char → pystr.

Abbreviation dms := (dms_to_decimal_degrees float_unicode upper_unicode).
Abbreviation plotted_as := (plotted_as float_unicode upper_unicode).
Abbreviation plot_obstacle :=
  (plot_obstacle float_unicode upper_unicode (H := recording_folium)).
Abbreviation plot_from :=
  (plot_from float_unicode upper_unicode (H := recording_folium)).
Abbreviation create_obstacle_map :=
  (create_obstacle_map float_unicode upper_unicode (H := recording_folium)).
Abbreviation main :=
  (main float_unicode upper_unicode (H := recording_folium)).

Ltac get_or_raise obs k :=
  let v := fresh "v" in
  let Hv := fresh "Hv" in
  destruct (obs !! k) as [v|] eqn:Hv;
  [ rewrite (getitem_Done obs k v Hv)
  | rewrite (getitem_Fail obs k Hv); cbn [mbind outcome_bind];
    repeat (match goal with
            | |- context [propagate (dms ?d ?m ?s ?h)] =>
                let c := fresh "coord" in
                let Hc := fresh "Hcoord" in
                destruct (dms_Ok float_unicode upper_unicode d m s h)
                  as [c Hc]; rewrite Hc
            end; cbn [mbind outcome_bind propagate]);
    done ].

Lemma plot_obstacle_recording (obs : gmap string pystr)
    (m0 m1 : list marker) :
  plot_obstacle obs m0 = Done m1 →
  m1 = m0 ∨ ∃ mk, m1 = m0 ++ [mk] ∧ plotted_as obs mk.
Proof.
  unfold plot_obstacle.
  get_or_raise obs "lat_deg". get_or_raise obs "lat_min".
  get_or_raise obs "lat_sec". get_or_raise obs "lat_hem".
  get_or_raise obs "lon_deg". get_or_raise obs "lon_min".
  get_or_raise obs "lon_sec". get_or_raise obs "lon_hem".
  cbn [mbind outcome_bind].
  destruct (dms_Ok float_unicode upper_unicode v v0 v1 v2) as [lat Hlat].
  rewrite Hlat. cbn [mbind outcome_bind propagate].
  destruct (dms_Ok float_unicode upper_unicode v3 v4 v5 v6) as [lon Hlon].
  rewrite Hlon. cbn [mbind outcome_bind propagate].
  destruct ((lat =? 0)%float && (lon =? 0)%float) eqn:Hzero;
    [intros [= <-]; by left|].
  get_or_raise obs "oas_code". get_or_raise obs "obstacle_number".
  get_or_raise obs "obstacle_type". get_or_raise obs "city_name".
  get_or_raise obs "agl_height". get_or_raise obs "amsl_height".
  get_or_raise obs "lighting". get_or_raise obs "action".
  get_or_raise obs "julian_date".
  cbn. intros [= <-]. right. eexists. split; [reflexivity|].
  exists v, v0, v1, v2, v3, v4, v5, v6, lat, lon. by repeat split.
Qed.

Lemma plot_from_recording (data : list (gmap string pystr))
    (stdout stdout' : list printed) (m0 m : list marker) :
  plot_from data stdout m0 = (stdout', Done m) →
  ∃ kept new, m = m0 ++ new ∧ kept `sublist_of` data ∧
    Forall2 plotted_as kept new.
Proof.
  revert stdout m0. induction data as [|obs data IH]; intros stdout m0.
  - intros [= _ <-]. exists [], []. rewrite app_nil_r.
    split; [done|]. split; constructor.
  - rewrite plot_from_cons.
    destruct (plot_obstacle obs m0) as [m1|e] eqn:Hplot;
      [|done].
    intros (kept & new & -> & Hsub & Hall)%IH.
    apply plot_obstacle_recording in Hplot as [->|(mk & -> & Hmk)].
    + exists kept, new. split; [done|]. split; [by constructor|done].
    + exists (obs :: kept), (mk :: new). rewrite <- app_assoc.
      split; [done|]. split; by constructor.
Qed.

(** X18: with a folium that records its markers, the markers of the
    saved map stand, in order, for a sub-sequence of the records: each
    lies at the converted latitude and longitude of its record, which are
    not both zero, and has the record's obstacle type as tooltip; there
    are no more markers than records. *)
Theorem create_obstacle_map_markers (data : list (gmap string pystr))
    (map_filename : pystr) (markers : list marker) :
  snd (create_obstacle_map data map_filename) = Done markers →
  length markers ≤ length data ∧
  ∃ kept, kept `sublist_of` data ∧ Forall2 plotted_as kept markers.
Proof.
  unfold create_obstacle_map.
  destruct (plot_from data [] (new_map map_center 5))
    as [stdout [m|e]] eqn:Hplot; [|done].
  apply plot_from_recording in Hplot as (kept & new & -> & Hsub & Hall).
  cbn. intros [= <-]. split; [|by exists kept].
  rewrite <- (Forall2_length _ _ _ Hall). by apply sublist_length.
Qed.

(** X19: from file to map: the markers of the saved map stand, in order,
    for a sub-sequence of the lines that passed the filter: each lies at
    the coordinates converted from columns 36-47 and 49-61 of its line,
    which are not both zero, with columns 63-80 as tooltip. *)
Theorem main_markers (f : list pystr) (markers : list marker) :
  snd (main f) = Done markers →
  ∃ kept, kept `sublist_of` data_lines f ∧
    Forall2 (λ line mk,
        let field first last := strip (columns first last line) in
        ∃ lat lon,
          dms (field 36 37) (field 39 40) (field 42 46) (field 47 47)
            = Ok lat ∧
          dms (field 49 51) (field 53 54) (field 56 60) (field 61 61)
            = Ok lon ∧
          ((lat =? 0) && (lon =? 0))%float = false ∧
          marker_location mk = (lat, lon) ∧
          tooltip mk = field 63 80)
      kept markers.
Proof.
  unfold main.
  destruct (parse_dof_file_cases f) as [(_ & records & -> & Hrecs)|(_ & ->)];
    [|done].
  unfold create_obstacle_map.
  destruct (plot_from records [] (new_map map_center 5))
    as [stdout [m|e]] eqn:Hplot; [|done].
  apply plot_from_recording in Hplot as (kept & new & -> & Hsub & Hall).
  cbn. intros [= <-].
  destruct (Forall2_sublist_r _ _ _ _ Hrecs Hsub) as (lines & Hlines & Hpar).
  exists lines. split; [done|].
  clear Hsub Hlines Hrecs. revert new Hall.
  induction Hpar as [|line rec lines kept Hrec _ IH]; intros new Hall.
  - apply Forall2_nil_inv_l in Hall as ->. constructor.
  - apply Forall2_cons_inv_l in Hall as (mk & new' & Hmk & Hall & ->).
    constructor; [|by apply IH].
    pose proof (parse_dof_line_Ok_length _ _ Hrec) as Hlen.
    destruct (parse_dof_line_long line Hlen) as (rec' & Hrec' & _ & Hfields).
    rewrite Hrec in Hrec'. injection Hrec' as <-.
    assert (∀ name a b v,
      bool_decide ((name, a, b) ∈ ColumnSpec) = true →
      rec !! name = Some v → v = strip (columns a b line)) as Hcol.
    { intros name a b v Hin%bool_decide_eq_true_1 Hv.
      rewrite (Hfields _ _ _ Hin) in Hv. by injection Hv. }
    destruct Hmk as (d1 & m1 & s1 & h1 & d2 & m2 & s2 & h2 & lat & lon
      & D1 & M1 & S1 & H1 & D2 & M2 & S2 & H2 & Hlat & Hlon & Hz & Hloc & Htip).
    apply (Hcol _ 36 37) in D1; [|done]. apply (Hcol _ 39 40) in M1; [|done].
    apply (Hcol _ 42 46) in S1; [|done]. apply (Hcol _ 47 47) in H1; [|done].
    apply (Hcol _ 49 51) in D2; [|done]. apply (Hcol _ 53 54) in M2; [|done].
    apply (Hcol _ 56 60) in S2; [|done]. apply (Hcol _ 61 61) in H2; [|done].
    apply (Hcol _ 63 80) in Htip; [|done].
    subst. cbv zeta. exists lat, lon. by repeat split.
Qed.
End recorded_markers.

Lemma create_obstacle_map_markers_witness :
  ∃ records markers,
    parse_dof_file sample_file = Ok records ∧
    snd (create_obstacle_map (λ _, Raise ValueError) (λ c, [c])
           (H := recording_folium) records (str "obstacles_map.html"))
      = Done markers ∧
    length markers ≤ length records.
Proof.
  destruct sample_file_plots as (records & markers & Hok & Hdone).
  exists records, markers. split; [done|]. split; [done|].
  apply (create_obstacle_map_markers _ _ records _ markers Hdone).
Defined.

Lemma main_markers_witness :
  ∃ markers,
    snd (main (λ _, Raise ValueError) (λ c, [c]) (H := recording_folium)
           sample_file) = Done markers ∧
    length markers ≤ 2.
Proof.
  destruct sample_file_plots as (records & markers & Hok & Hdone).
  exists markers.
  assert (snd (main (λ _, Raise ValueError) (λ c, [c])
                 (H := recording_folium) sample_file) = Done markers)
    as Hmain by (unfold main; by rewrite Hok).
  split; [done|].
  destruct (main_markers _ _ sample_file markers Hmain)
    as (kept & Hsub & Hall).
  rewrite <- (Forall2_length _ _ _ Hall).
  apply sublist_length in Hsub. revert Hsub.
  by replace (length (data_lines sample_file)) with 2 by (vm_compute; done).
Defined.
